(** * EC2 instance discovery: label synthesis, pagination and zone cache

    A shallow embedding of [lib/promscrape/discovery/ec2/instance.go].

    - Go structs are records, one module per struct so that the field
      names of the source are kept ([Instance.VPCID], [Tag.Key], ...);
      the field [Type] of [Instance] is [Instance.Type_].
    - Go strings are [string]; [len(s) == 0] is [len s =? 0].
    - [map[string]string] is [gmap string string]; indexing a Go map at
      a missing key yields the zero value, see [index].
    - A slice is a list; the nil slice and the empty slice are both [[]].
    - A Go function returning [(xs, err)] returns a pair whose second
      component is [option error] ([None] is Go's [nil] error).
    - The EC2 endpoint is an oracle whose answer may depend on all the
      requests served so far; the request log is threaded explicitly.
    - The unbounded [for] loop of [getReservations] takes fuel. *)

From Stdlib Require Import Ascii String.
From stdpp Require Import gmap strings pretty list.

#[local] Set Warnings "-clear-no-such-hyp".

Open Scope string_scope.
Open Scope Z_scope.
Open Scope list_scope.

(** ** Go primitives *)

Definition len (s : string) : nat := String.length s.

(** [m[k]] on a Go [map[string]string]: the zero value when absent. *)
Definition index (m : gmap string string) (k : string) : string :=
  default "" (m !! k).

(** [m[k]] on a Go [map[string]bool]. *)
Definition index_bool (m : gmap string bool) (k : string) : bool :=
  default false (m !! k).

(** [strings.Join(elems, sep)]. *)
Fixpoint Join (elems : list string) (sep : string) : string :=
  match elems with
  | [] => ""
  | [x] => x
  | x :: rest => x +:+ sep +:+ Join rest sep
  end.

(** ** Data model (the XML-tagged structs of the source) *)

Module Tag.
Record t := mk { Key : string; Value : string }.
End Tag.

Module TagSet.
Record t := mk { Items : list Tag.t }.
End TagSet.

Module Ipv6AddressesSet.
Record t := mk { Items : list string }.
End Ipv6AddressesSet.

Module NetworkInterface.
Record t := mk { SubnetID : string; IPv6AddressesSet : Ipv6AddressesSet.t }.
End NetworkInterface.

Module NetworkInterfaceSet.
Record t := mk { Items : list NetworkInterface.t }.
End NetworkInterfaceSet.

Module Placement.
Record t := mk { AvailabilityZone : string }.
End Placement.

Module InstanceState.
Record t := mk { Name : string }.
End InstanceState.

Module Instance.
Record t := mk {
  PrivateIPAddress : string;
  Architecture : string;
  Placement : Placement.t;
  ImageID : string;
  ID : string;
  Lifecycle : string;
  State : InstanceState.t;
  Type_ : string;
  Platform : string;
  SubnetID : string;
  PrivateDNSName : string;
  PublicDNSName : string;
  PublicIPAddress : string;
  VPCID : string;
  NetworkInterfaceSet : NetworkInterfaceSet.t;
  TagSet : TagSet.t
}.
End Instance.

Module InstanceSet.
Record t := mk { Items : list Instance.t }.
End InstanceSet.

Module Reservation.
Record t := mk { OwnerID : string; InstanceSet : InstanceSet.t }.
End Reservation.

Module ReservationSet.
Record t := mk { Items : list Reservation.t }.
End ReservationSet.

Module InstancesResponse.
Record t := mk { ReservationSet : ReservationSet.t; NextPageToken : string }.
End InstancesResponse.

Module AvailabilityZone.
Record t := mk { ZoneName : string; ZoneID : string }.
End AvailabilityZone.

Module AvailabilityZoneInfo.
Record t := mk { Items : list AvailabilityZone.t }.
End AvailabilityZoneInfo.

Module AvailabilityZonesResponse.
Record t := mk { AvailabilityZoneInfo : AvailabilityZoneInfo.t }.
End AvailabilityZonesResponse.

(** A label map, [map[string]string] in the source. *)
Abbreviation LabelMap := (gmap string string).

(** ** Collaborators from [discoveryutils] *)

(** Modelled from the spec: [discoveryutils.JoinHostPort] is not part of
    the file under verification.  The spec gives the address label as
    [privateIp:port], the private IP and the decimal port joined by a
    colon. *)
Definition JoinHostPort (host : string) (port : Z) : string :=
  host +:+ ":" +:+ pretty port.

(** ** Label synthesis *)

Section LabelBuilder.

(** [discoveryutils.SanitizeLabelName] is not part of the file under
    verification; label synthesis is parametric in it. *)
Variable SanitizeLabelName : string → string.

(** One iteration of the loop over the network interfaces; the loop
    state is [(subnets, seenSubnets, ipv6Addrs)]. *)
Definition niStep
    (st : list string * gmap string bool * list string)
    (ni : NetworkInterface.t) : list string * gmap string bool * list string :=
  let '(subnets, seenSubnets, ipv6Addrs) := st in
  if (len (NetworkInterface.SubnetID ni) =? 0)%nat then st
  else
    let '(subnets, seenSubnets) :=
      if negb (index_bool seenSubnets (NetworkInterface.SubnetID ni)) then
        (subnets ++ [NetworkInterface.SubnetID ni],
         <[NetworkInterface.SubnetID ni := true]> seenSubnets)
      else (subnets, seenSubnets) in
    (subnets, seenSubnets,
     ipv6Addrs ++ Ipv6AddressesSet.Items (NetworkInterface.IPv6AddressesSet ni)).

Definition niLoop (nis : list NetworkInterface.t)
  : list string * gmap string bool * list string :=
  foldl niStep ([], ∅, []) nis.

(** The [if len(inst.VPCID) > 0] block. *)
Definition vpcLabels (inst : Instance.t) (m : LabelMap) : LabelMap :=
  if (0 <? len (Instance.VPCID inst))%nat then
    let '(subnets, _, ipv6Addrs) :=
      niLoop (NetworkInterfaceSet.Items (Instance.NetworkInterfaceSet inst)) in
    let m := <["__meta_ec2_subnet_id" := "," +:+ Join subnets "," +:+ ","]> m in
    if (0 <? length ipv6Addrs)%nat then
      <["__meta_ec2_ipv6_addresses" := "," +:+ Join ipv6Addrs "," +:+ ","]> m
    else m
  else m.

(** One iteration of the loop over the tags. *)
Definition tagStep (m : LabelMap) (t : Tag.t) : LabelMap :=
  if (len (Tag.Key t) =? 0)%nat || (len (Tag.Value t) =? 0)%nat then m
  else
    let name := SanitizeLabelName (Tag.Key t) in
    <["__meta_ec2_tag_" +:+ name := Tag.Value t]> m.

(** The map literal at the top of [appendTargetLabels]. *)
Definition baseLabels (inst : Instance.t) (ownerID : string) (port : Z)
    (azMap : gmap string string) : LabelMap :=
  let addr := JoinHostPort (Instance.PrivateIPAddress inst) port in
  list_to_map [
    ("__address__", addr);
    ("__meta_ec2_architecture", Instance.Architecture inst);
    ("__meta_ec2_ami", Instance.ImageID inst);
    ("__meta_ec2_availability_zone",
       Placement.AvailabilityZone (Instance.Placement inst));
    ("__meta_ec2_availability_zone_id",
       index azMap (Placement.AvailabilityZone (Instance.Placement inst)));
    ("__meta_ec2_instance_id", Instance.ID inst);
    ("__meta_ec2_instance_lifecycle", Instance.Lifecycle inst);
    ("__meta_ec2_instance_state", InstanceState.Name (Instance.State inst));
    ("__meta_ec2_instance_type", Instance.Type_ inst);
    ("__meta_ec2_owner_id", ownerID);
    ("__meta_ec2_platform", Instance.Platform inst);
    ("__meta_ec2_primary_subnet_id", Instance.SubnetID inst);
    ("__meta_ec2_private_dns_name", Instance.PrivateDNSName inst);
    ("__meta_ec2_private_ip", Instance.PrivateIPAddress inst);
    ("__meta_ec2_public_dns_name", Instance.PublicDNSName inst);
    ("__meta_ec2_public_ip", Instance.PublicIPAddress inst);
    ("__meta_ec2_vpc_id", Instance.VPCID inst)
  ].

(** The label map [m] that [appendTargetLabels] builds for an instance
    it does not skip. *)
Definition targetLabels (inst : Instance.t) (ownerID : string) (port : Z)
    (azMap : gmap string string) : LabelMap :=
  let m := baseLabels inst ownerID port azMap in
  let m := vpcLabels inst m in
  foldl tagStep m (TagSet.Items (Instance.TagSet inst)).

Definition appendTargetLabels (inst : Instance.t) (ms : list LabelMap)
    (ownerID : string) (port : Z) (azMap : gmap string string) : list LabelMap :=
  if (len (Instance.PrivateIPAddress inst) =? 0)%nat then
    (* Cannot scrape instance without private IP address *)
    ms
  else
    ms ++ [targetLabels inst ownerID port azMap].

End LabelBuilder.

(** ** Errors *)

(** Go [error] values.  [ExternalError] is an error produced by a
    collaborator (the transport, the XML decoder); [Errorf format args err]
    is [fmt.Errorf(format, args..., err)] with [err] wrapped by [%w]. *)
Inductive error : Type :=
| ExternalError (msg : string)
| Errorf (format : string) (args : list string) (err : error).

(** The result of a Go function returning a pointer and an error, where
    exactly one of the two is non-nil. *)
Inductive result (T : Type) : Type :=
| Ok (v : T)
| Err (err : error).
Arguments Ok {T} v.
Arguments Err {T} err.

(** [errors.Unwrap]. *)
Definition Unwrap (e : error) : option error :=
  match e with
  | ExternalError _ => None
  | Errorf _ _ err => Some err
  end.

(** ** The EC2 endpoint and the discovery configuration *)

Module Request.
Record t := mk { action : string; pageToken : string }.
End Request.

(** The requests issued so far, oldest first. *)
Abbreviation History := (list Request.t).

(** Modelled from the spec: the struct [apiConfig] is declared outside
    this file.  The spec's DiscoveryConfig holds the scrape port and an
    owned, lazily populated zone cache behind a lock; these are the fields
    [port] and [azMap] that this file reads and writes.  [azMap] is [None]
    while the Go field is the nil map.  The lock [azMapLock] has no
    counterpart: the model is sequential. *)
Module apiConfig.
Record t := mk { port : Z; azMap : option (gmap string string) }.
End apiConfig.

Section Discovery.

Variable SanitizeLabelName : string → string.

(** The EC2 endpoint: the payload and error returned for a request,
    given the requests served before it. *)
Variable endpoint : History → Request.t → string * option error.

(** [xml.Unmarshal] at the two response types: the decoded value and
    the decoder's error. *)
Variable xmlUnmarshalInstances : string → InstancesResponse.t * option error.
Variable xmlUnmarshalZones : string → AvailabilityZonesResponse.t * option error.

(** Modelled from the spec: [getEC2APIResponse] is declared outside this
    file.  By the PageFetcher contract it takes an action name and a
    continuation token, issues one request and returns the raw payload or
    an error; the request is appended to the log. *)
Definition getEC2APIResponse (action pageToken : string) (w : History)
  : string * option error * History :=
  let req := Request.mk action pageToken in
  (endpoint w req, w ++ [req]).

Definition parseInstancesResponse (data : string) : result InstancesResponse.t :=
  let '(v, err) := xmlUnmarshalInstances data in
  match err with
  | Some err =>
      Err (Errorf "cannot unmarshal InstancesResponse from %q: %w" [data] err)
  | None => Ok v
  end.

Definition parseAvailabilityZonesResponse (data : string)
  : result AvailabilityZonesResponse.t :=
  let '(v, err) := xmlUnmarshalZones data in
  match err with
  | Some err =>
      Err (Errorf "cannot unmarshal DescribeAvailabilityZonesResponse from %q: %w"
             [data] err)
  | None => Ok v
  end.

(** The [for] loop of [getReservations]; [None] when the fuel runs out
    before the loop returns. *)
Fixpoint getReservationsLoop (fuel : nat) (rs : list Reservation.t)
    (pageToken : string) (w : History)
  : option (list Reservation.t * option error * History) :=
  match fuel with
  | O => None
  | S fuel =>
    let '(data, err, w) := getEC2APIResponse "DescribeInstances" pageToken w in
    match err with
    | Some err => Some ([], Some (Errorf "cannot obtain instances: %w" [] err), w)
    | None =>
      match parseInstancesResponse data with
      | Err err =>
          Some ([], Some (Errorf "cannot parse instance list: %w" [] err), w)
      | Ok ir =>
        let rs := rs ++ ReservationSet.Items (InstancesResponse.ReservationSet ir) in
        if (len (InstancesResponse.NextPageToken ir) =? 0)%nat then
          Some (rs, None, w)
        else
          getReservationsLoop fuel rs (InstancesResponse.NextPageToken ir) w
      end
    end
  end.

Definition getReservations (fuel : nat) (w : History)
  : option (list Reservation.t * option error * History) :=
  getReservationsLoop fuel [] "" w.

Definition getAvailabilityZones (w : History)
  : list AvailabilityZone.t * option error * History :=
  let '(data, err, w) := getEC2APIResponse "DescribeAvailabilityZones" "" w in
  match err with
  | Some err => ([], Some (Errorf "cannot obtain availability zones: %w" [] err), w)
  | None =>
    match parseAvailabilityZonesResponse data with
    | Err err =>
        ([], Some (Errorf "cannot parse availability zones list: %w" [] err), w)
    | Ok azr =>
        (AvailabilityZoneInfo.Items
           (AvailabilityZonesResponse.AvailabilityZoneInfo azr), None, w)
    end
  end.

(** [getAZMap]: the returned map is the one now stored in the config.
    The warning logged on failure is not modelled. *)
Definition getAZMap (cfg : apiConfig.t) (w : History)
  : gmap string string * apiConfig.t * History :=
  match apiConfig.azMap cfg with
  | Some azMap => (azMap, cfg, w)
  | None =>
    let '(azs, err, w) := getAvailabilityZones w in
    let azMap : gmap string string := ∅ in
    match err with
    | Some _ => (azMap, apiConfig.mk (apiConfig.port cfg) (Some azMap), w)
    | None =>
      let azMap :=
        foldl (λ m az, <[AvailabilityZone.ZoneName az := AvailabilityZone.ZoneID az]> m)
              azMap azs in
      (azMap, apiConfig.mk (apiConfig.port cfg) (Some azMap), w)
    end
  end.

(** The two nested [range] loops of [getInstancesLabels]. *)
Definition instancesLabels (rs : list Reservation.t) (port : Z)
    (azMap : gmap string string) : list LabelMap :=
  foldl (λ ms r,
           foldl (λ ms inst,
                    appendTargetLabels SanitizeLabelName inst ms
                      (Reservation.OwnerID r) port azMap)
                 ms (InstanceSet.Items (Reservation.InstanceSet r)))
        [] rs.

Definition getInstancesLabels (fuel : nat) (cfg : apiConfig.t) (w : History)
  : option (list LabelMap * option error * apiConfig.t * History) :=
  match getReservations fuel w with
  | None => None
  | Some (rs, Some err, w) => Some ([], Some err, cfg, w)
  | Some (rs, None, w) =>
    let '(azMap, cfg', w) := getAZMap cfg w in
    Some (instancesLabels rs (apiConfig.port cfg) azMap, None, cfg', w)
  end.

End Discovery.

(** ** Scenarios for the paginated fetch *)

Definition instancesRequest (pageToken : string) : Request.t :=
  Request.mk "DescribeInstances" pageToken.

Definition zonesRequest : Request.t :=
  Request.mk "DescribeAvailabilityZones" "".

(** The reservations of a sequence of pages, in page order. *)
Definition reservationsOf (pages : list InstancesResponse.t) : list Reservation.t :=
  concat (map (λ ir, ReservationSet.Items (InstancesResponse.ReservationSet ir))
              pages).

(** The requests of a fetch that starts at [tok] and reads [pages], each
    request carrying the next-token of the page before it. *)
Fixpoint requestsOf (tok : string) (pages : list InstancesResponse.t)
  : list Request.t :=
  match pages with
  | [] => []
  | ir :: pages =>
      instancesRequest tok :: requestsOf (InstancesResponse.NextPageToken ir) pages
  end.

(** The token in hand after reading [pages] from [tok]. *)
Fixpoint tokenAfter (tok : string) (pages : list InstancesResponse.t) : string :=
  match pages with
  | [] => tok
  | ir :: pages => tokenAfter (InstancesResponse.NextPageToken ir) pages
  end.

Section Scenarios.

Variable endpoint : History → Request.t → string * option error.
Variable xmlUnmarshalInstances : string → InstancesResponse.t * option error.

(** After the requests [w], the endpoint answers a fetch that starts at
    [tok] with the pages [pages], in this order: each request gets a
    payload that parses to the next page. *)
Fixpoint serves (w : History) (tok : string) (pages : list InstancesResponse.t)
  : Prop :=
  match pages with
  | [] => True
  | ir :: pages =>
      (∃ data, endpoint w (instancesRequest tok) = (data, None) ∧
               parseInstancesResponse xmlUnmarshalInstances data = Ok ir) ∧
      serves (w ++ [instancesRequest tok]) (InstancesResponse.NextPageToken ir)
             pages
  end.

(** After the requests [w], the request for the page at [tok] fails, in
    the transport or in the parser; [err] is the error that
    [getReservations] then returns. *)
Inductive pageFailure (w : History) (tok : string) : error → Prop :=
| transportFailure data err :
    endpoint w (instancesRequest tok) = (data, Some err) →
    pageFailure w tok (Errorf "cannot obtain instances: %w" [] err)
| parseFailure data err :
    endpoint w (instancesRequest tok) = (data, None) →
    parseInstancesResponse xmlUnmarshalInstances data = Err err →
    pageFailure w tok (Errorf "cannot parse instance list: %w" [] err).

End Scenarios.

(** ** Specification-side definitions *)

(** Follows the spec's words, not the code: every element exactly once,
    the first occurrence wins, first-seen order is preserved. *)
Fixpoint dedupFirst (l : list string) : list string :=
  match l with
  | [] => []
  | x :: l => x :: filter (λ y, y ≠ x) (dedupFirst l)
  end.

(** The comma-wrapped rendering of a list: [,a,b,c,]. *)
Definition commaWrapped (l : list string) : string :=
  "," +:+ Join l "," +:+ ",".

(** The network interfaces and the tags of an instance. *)
Definition interfaces (inst : Instance.t) : list NetworkInterface.t :=
  NetworkInterfaceSet.Items (Instance.NetworkInterfaceSet inst).

Definition tags (inst : Instance.t) : list Tag.t :=
  TagSet.Items (Instance.TagSet inst).

(** The instance with its tags replaced. *)
Definition withTags (inst : Instance.t) (ts : list Tag.t) : Instance.t :=
  Instance.mk (Instance.PrivateIPAddress inst) (Instance.Architecture inst)
    (Instance.Placement inst) (Instance.ImageID inst) (Instance.ID inst)
    (Instance.Lifecycle inst) (Instance.State inst) (Instance.Type_ inst)
    (Instance.Platform inst) (Instance.SubnetID inst)
    (Instance.PrivateDNSName inst) (Instance.PublicDNSName inst)
    (Instance.PublicIPAddress inst) (Instance.VPCID inst)
    (Instance.NetworkInterfaceSet inst) (TagSet.mk ts).

(** The non-empty subnet ids of the network interfaces, in order. *)
Definition subnetIDs (inst : Instance.t) : list string :=
  filter (λ s, s ≠ "") (map NetworkInterface.SubnetID (interfaces inst)).

(** The IPv6 addresses of a list of interfaces, interface by interface. *)
Definition ipv6Of (nis : list NetworkInterface.t) : list string :=
  concat (map (λ ni, Ipv6AddressesSet.Items (NetworkInterface.IPv6AddressesSet ni))
              nis).

(** The interfaces that carry a subnet id. *)
Definition withSubnet (nis : list NetworkInterface.t) : list NetworkInterface.t :=
  filter (λ ni, NetworkInterface.SubnetID ni ≠ "") nis.

(** The instances of a reservation list with their owner, in order. *)
Definition instancesOf (rs : list Reservation.t) : list (string * Instance.t) :=
  concat (map (λ r, map (pair (Reservation.OwnerID r))
                        (InstanceSet.Items (Reservation.InstanceSet r))) rs).

(** The address label and the sixteen per-attribute labels of an
    instance, as the spec enumerates them. *)
Definition fixedLabels (m : LabelMap) (inst : Instance.t) (ownerID : string)
    (port : Z) (azMap : gmap string string) : Prop :=
  m !! "__address__" =
    Some (Instance.PrivateIPAddress inst +:+ ":" +:+ pretty port) ∧
  m !! "__meta_ec2_architecture" = Some (Instance.Architecture inst) ∧
  m !! "__meta_ec2_ami" = Some (Instance.ImageID inst) ∧
  m !! "__meta_ec2_availability_zone" =
    Some (Placement.AvailabilityZone (Instance.Placement inst)) ∧
  m !! "__meta_ec2_availability_zone_id" =
    Some (default "" (azMap !! Placement.AvailabilityZone (Instance.Placement inst))) ∧
  m !! "__meta_ec2_instance_id" = Some (Instance.ID inst) ∧
  m !! "__meta_ec2_instance_lifecycle" = Some (Instance.Lifecycle inst) ∧
  m !! "__meta_ec2_instance_state" =
    Some (InstanceState.Name (Instance.State inst)) ∧
  m !! "__meta_ec2_instance_type" = Some (Instance.Type_ inst) ∧
  m !! "__meta_ec2_owner_id" = Some ownerID ∧
  m !! "__meta_ec2_platform" = Some (Instance.Platform inst) ∧
  m !! "__meta_ec2_primary_subnet_id" = Some (Instance.SubnetID inst) ∧
  m !! "__meta_ec2_private_dns_name" = Some (Instance.PrivateDNSName inst) ∧
  m !! "__meta_ec2_private_ip" = Some (Instance.PrivateIPAddress inst) ∧
  m !! "__meta_ec2_public_dns_name" = Some (Instance.PublicDNSName inst) ∧
  m !! "__meta_ec2_public_ip" = Some (Instance.PublicIPAddress inst) ∧
  m !! "__meta_ec2_vpc_id" = Some (Instance.VPCID inst).

(** An instance that can be scraped: its private IP is not empty. *)
Definition addressable (oi : string * Instance.t) : Prop :=
  Instance.PrivateIPAddress oi.2 ≠ "".

#[global] Instance addressable_dec oi : Decision (addressable oi) :=
  not_dec (decide (Instance.PrivateIPAddress oi.2 = "")).

(** The fixed prefix of the per-tag labels. *)
Definition tagPrefix : string := "__meta_ec2_tag_".

(** A label name that does not start with the tag prefix. *)
Definition fixedName (k : string) : Prop := ∀ name, k ≠ tagPrefix +:+ name.

(** A tag is kept when neither its key nor its value is empty. *)
Definition kept (t : Tag.t) : Prop := Tag.Key t ≠ "" ∧ Tag.Value t ≠ "".

#[global] Instance kept_dec t : Decision (kept t) :=
  and_dec (not_dec (decide (Tag.Key t = ""))) (not_dec (decide (Tag.Value t = ""))).

(** The label name of a tag, for a given sanitizer. *)
Definition tagName (sanitize : string → string) (t : Tag.t) : string :=
  tagPrefix +:+ sanitize (Tag.Key t).

(** The names of the address label and of the sixteen per-attribute
    labels, in the order of the map literal of [appendTargetLabels]. *)
Definition fixedLabelNames : list string :=
  ["__address__"; "__meta_ec2_architecture"; "__meta_ec2_ami";
   "__meta_ec2_availability_zone"; "__meta_ec2_availability_zone_id";
   "__meta_ec2_instance_id"; "__meta_ec2_instance_lifecycle";
   "__meta_ec2_instance_state"; "__meta_ec2_instance_type";
   "__meta_ec2_owner_id"; "__meta_ec2_platform";
   "__meta_ec2_primary_subnet_id"; "__meta_ec2_private_dns_name";
   "__meta_ec2_private_ip"; "__meta_ec2_public_dns_name";
   "__meta_ec2_public_ip"; "__meta_ec2_vpc_id"].

(** [sub] occurs in [s] as a contiguous substring. *)
Definition occursIn (sub s : string) : Prop := ∃ p q, s = p +:+ sub +:+ q.

(** The instance with its network interfaces replaced. *)
Definition withInterfaces (inst : Instance.t) (nis : list NetworkInterface.t)
  : Instance.t :=
  Instance.mk (Instance.PrivateIPAddress inst) (Instance.Architecture inst)
    (Instance.Placement inst) (Instance.ImageID inst) (Instance.ID inst)
    (Instance.Lifecycle inst) (Instance.State inst) (Instance.Type_ inst)
    (Instance.Platform inst) (Instance.SubnetID inst)
    (Instance.PrivateDNSName inst) (Instance.PublicDNSName inst)
    (Instance.PublicIPAddress inst) (Instance.VPCID inst)
    (NetworkInterfaceSet.mk nis) (Instance.TagSet inst).

(** The zone name of an instance. *)
Definition zoneOf (inst : Instance.t) : string :=
  Placement.AvailabilityZone (Instance.Placement inst).

(** A request for a page of instances. *)
Definition isInstancesRequest (req : Request.t) : Prop :=
  Request.action req = "DescribeInstances".

(** ** A sample deployment, used to run the model on concrete inputs *)

Module Sample.

Definition isLabelChar (c : ascii) : bool :=
  let n := nat_of_ascii c in
  ((48 <=? n) && (n <=? 57) || (65 <=? n) && (n <=? 90)
   || (97 <=? n) && (n <=? 122) || (n =? 95))%nat.

(** Modelled from the spec: [discoveryutils.SanitizeLabelName] is not part
    of the file under verification.  The spec describes it as normalizing
    the non-alphanumeric characters of a tag key into a label-safe token;
    here every character outside letters, digits and underscore becomes
    an underscore. *)
Fixpoint SanitizeLabelName (s : string) : string :=
  match s with
  | EmptyString => EmptyString
  | String c s =>
      String (if isLabelChar c then c else "_"%char) (SanitizeLabelName s)
  end.

Definition ni (subnet : string) (ipv6 : list string) : NetworkInterface.t :=
  NetworkInterface.mk subnet (Ipv6AddressesSet.mk ipv6).

Definition instance (ip vpc : string) (nis : list NetworkInterface.t)
    (tags : list Tag.t) : Instance.t :=
  Instance.mk ip "x86_64" (Placement.mk "us-east-1a") "ami-1" "i-1" "spot"
    (InstanceState.mk "running") "t3.micro" "linux" "subnet-0" "ip-10-0-0-1"
    "ec2-1.example" "203.0.113.1" vpc (NetworkInterfaceSet.mk nis)
    (TagSet.mk tags).

Definition reservation (owner : string) (insts : list Instance.t) : Reservation.t :=
  Reservation.mk owner (InstanceSet.mk insts).

Definition page (rs : list Reservation.t) (next : string) : InstancesResponse.t :=
  InstancesResponse.mk (ReservationSet.mk rs) next.

Definition zones (azs : list AvailabilityZone.t) : AvailabilityZonesResponse.t :=
  AvailabilityZonesResponse.mk (AvailabilityZoneInfo.mk azs).

(** An endpoint that answers from a table keyed by action and token and
    refuses every other request. *)
Definition tableEndpoint (tbl : list (string * string * string))
    (w : History) (req : Request.t) : string * option error :=
  match list_find (λ e, e.1 = (Request.action req, Request.pageToken req)) tbl with
  | Some (_, e) => (e.2, None)
  | None => ("", Some (ExternalError "connection refused"))
  end.

(** A decoder that answers from a table keyed by payload. *)
Definition tableUnmarshal {T} (zero : T) (tbl : list (string * T)) (data : string)
  : T * option error :=
  match list_find (λ e, e.1 = data) tbl with
  | Some (_, e) => (e.2, None)
  | None => (zero, Some (ExternalError "XML syntax error"))
  end.

(** Three instances: one with interfaces and tags, one in no VPC, one
    without a private IP. *)
Definition web : Instance.t :=
  instance "10.0.0.1" "vpc-1"
    [ni "subnet-a" ["a"; "b"]; ni "subnet-a" []; ni "subnet-b" ["c"]]
    [Tag.mk "Name" "web"; Tag.mk "" "x"; Tag.mk "Env:Prod" "1";
     Tag.mk "Env_Prod" "2"].

Definition classic : Instance.t :=
  instance "10.0.0.2" "" [ni "subnet-a" ["d"]] [Tag.mk "Name" ""].

Definition unaddressable : Instance.t :=
  instance "" "vpc-1" [ni "subnet-a" []] [].

(** An instance whose last interface has an IPv6 address and no subnet. *)
Definition detached : Instance.t :=
  instance "10.0.0.3" "vpc-1"
    [ni "subnet-a" ["a"; "b"]; ni "subnet-b" []; ni "" ["c"]] [].

(** Subnet ids [s1, s1, s2, "", s3], and no interface at all. *)
Definition manySubnets : Instance.t :=
  instance "10.0.0.4" "vpc-1"
    [ni "s1" []; ni "s1" []; ni "s2" []; ni "" []; ni "s3" []] [].

Definition bare : Instance.t := instance "10.0.0.5" "vpc-1" [] [].

Definition page1 : InstancesResponse.t :=
  page [reservation "owner-1" [web; unaddressable]] "t2".
Definition page2 : InstancesResponse.t :=
  page [reservation "owner-2" [classic]; reservation "owner-3" []] "t3".
Definition page3 : InstancesResponse.t :=
  page [reservation "owner-4" [bare]] "".

Definition unmarshalInstances : string → InstancesResponse.t * option error :=
  tableUnmarshal (page [] "")
    [("<page1>", page1); ("<page2>", page2); ("<page3>", page3)].

(** A zone-list document as the endpoint could send it: the zones and a
    continuation token.  [AvailabilityZonesResponse] has no field for the
    token, so decoding keeps the zones only. *)
Record zoneDocument := { zoneItems : list AvailabilityZone.t; nextToken : string }.

Definition zoneDocuments : list (string * zoneDocument) :=
  [("<zones1>", {| zoneItems := [AvailabilityZone.mk "us-east-1a" "use1-az1"];
                   nextToken := "z2" |});
   ("<zones2>", {| zoneItems := [AvailabilityZone.mk "us-east-1b" "use1-az2"];
                   nextToken := "" |})].

Definition unmarshalZones : string → AvailabilityZonesResponse.t * option error :=
  tableUnmarshal (zones []) (map (λ d, (d.1, zones (zoneItems d.2))) zoneDocuments).

(** Three instance pages and a zone list in two pages. *)
Definition endpoint : History → Request.t → string * option error :=
  tableEndpoint
    [("DescribeInstances", "", "<page1>");
     ("DescribeInstances", "t2", "<page2>");
     ("DescribeInstances", "t3", "<page3>");
     ("DescribeAvailabilityZones", "", "<zones1>");
     ("DescribeAvailabilityZones", "z2", "<zones2>")].

(** The third instance page cannot be obtained; no zone list either. *)
Definition brokenEndpoint : History → Request.t → string * option error :=
  tableEndpoint
    [("DescribeInstances", "", "<page1>");
     ("DescribeInstances", "t2", "<page2>")].

(** One instance page; the zone list cannot be obtained. *)
Definition noZonesEndpoint : History → Request.t → string * option error :=
  tableEndpoint [("DescribeInstances", "", "<page3>")].

Definition cfg : apiConfig.t := apiConfig.mk 9100 None.

(** An endpoint that answers every request with the first page, whose
    next-token is never empty. *)
Definition loopingEndpoint : History → Request.t → string * option error :=
  λ _ _, ("<page1>", None).

(** A zone list that names one zone twice. *)
Definition unmarshalRepeatedZones
  : string → AvailabilityZonesResponse.t * option error :=
  tableUnmarshal (zones [])
    [("<zones1>",
      zones [AvailabilityZone.mk "us-east-1a" "old";
             AvailabilityZone.mk "us-east-1b" "use1-az2";
             AvailabilityZone.mk "us-east-1a" "use1-az1"])].

(** An instance in a VPC whose interfaces have no subnet id. *)
Definition orphaned : Instance.t :=
  instance "10.0.0.7" "vpc-1" [ni "" ["c"]; ni "" []] [].

(** Three tags with distinct sanitized keys, one of them skipped. *)
Definition tagged : Instance.t :=
  instance "10.0.0.6" "vpc-1" []
    [Tag.mk "Name" "web"; Tag.mk "" "x"; Tag.mk "Env:Prod" "1"].

End Sample.

(** * Proofs *)

(** ** Go primitives *)

Lemma len_eq_0 (s : string) : (len s =? 0)%nat = true ↔ s = "".
Proof.
  rewrite Nat.eqb_eq. unfold len. destruct s; simpl; split; congruence.
Qed.

Lemma len_ne_0 (s : string) : (len s =? 0)%nat = false ↔ s ≠ "".
Proof. rewrite <- len_eq_0. destruct (len s =? 0)%nat; split; congruence. Qed.

Lemma len_pos (s : string) : (0 <? len s)%nat = true ↔ s ≠ "".
Proof.
  rewrite Nat.ltb_lt. unfold len.
  destruct s; simpl; split; intros; first [lia | congruence].
Qed.

Lemma length_pos_nil {A} (l : list A) : (0 <? length l)%nat = false ↔ l = [].
Proof. destruct l; unfold Nat.ltb; simpl; split; congruence. Qed.

Lemma append_nonempty_l (s t : string) : s ≠ "" → s +:+ t ≠ "".
Proof. by destruct s. Qed.

(** ** The network-interface loop *)

Section NetworkInterfaces.

Local Abbreviation subnetOf := NetworkInterface.SubnetID.

Lemma niStep_no_subnet st ni : subnetOf ni = "" → niStep st ni = st.
Proof.
  intros H%len_eq_0. unfold niStep. destruct st as [[? ?] ?]. by rewrite H.
Qed.

Lemma niStep_seen subnets seen addrs ni :
  subnetOf ni ≠ "" → index_bool seen (subnetOf ni) = true →
  niStep (subnets, seen, addrs) ni =
    (subnets, seen,
     addrs ++ Ipv6AddressesSet.Items (NetworkInterface.IPv6AddressesSet ni)).
Proof. intros H%len_ne_0 Hseen. unfold niStep. by rewrite H, Hseen. Qed.

Lemma niStep_fresh subnets seen addrs ni :
  subnetOf ni ≠ "" → index_bool seen (subnetOf ni) = false →
  niStep (subnets, seen, addrs) ni =
    (subnets ++ [subnetOf ni], <[subnetOf ni:=true]> seen,
     addrs ++ Ipv6AddressesSet.Items (NetworkInterface.IPv6AddressesSet ni)).
Proof. intros H%len_ne_0 Hseen. unfold niStep. by rewrite H, Hseen. Qed.

(** Loop invariant, stated for an arbitrary entry state: the interfaces
    without a subnet id contribute nothing, the others contribute their
    subnet id unless it was seen before, and all of their addresses. *)
Lemma niLoop_from (nis : list NetworkInterface.t) subnets seen addrs :
  ∃ seen',
    foldl niStep (subnets, seen, addrs) nis =
      (subnets ++ filter (λ s, index_bool seen s = false)
                    (dedupFirst (filter (λ s, s ≠ "") (map subnetOf nis))),
       seen',
       addrs ++ ipv6Of (withSubnet nis)).
Proof.
  revert subnets seen addrs.
  induction nis as [|ni nis IH]; intros subnets seen addrs.
  - exists seen. unfold ipv6Of, withSubnet. simpl. by rewrite !app_nil_r.
  - cbn [foldl map]. unfold withSubnet.
    destruct (decide (subnetOf ni = "")) as [Hid|Hid].
    + rewrite niStep_no_subnet by done.
      rewrite !filter_cons_False by (intros H; apply H; exact Hid).
      apply IH.
    + rewrite !filter_cons_True by exact Hid.
      unfold ipv6Of. cbn [map concat]. fold (ipv6Of (withSubnet nis)).
      cbn [dedupFirst].
      destruct (index_bool seen (subnetOf ni)) eqn:Hseen.
      * rewrite niStep_seen by done.
        edestruct IH as [seen' ->].
        exists seen'. rewrite filter_cons_False by congruence.
        rewrite list_filter_filter_l, app_assoc; [done|].
        intros x Hx ->. congruence.
      * rewrite niStep_fresh by done.
        edestruct IH as [seen' ->].
        exists seen'. rewrite filter_cons_True by exact Hseen.
        rewrite list_filter_filter, <- !app_assoc. simpl.
        do 4 f_equal. apply list_filter_iff. intros x.
        unfold index_bool. rewrite lookup_insert.
        case_decide; simplify_eq; simpl; naive_solver.
Qed.

Lemma filter_all {A} (P : A → Prop) `{!∀ x, Decision (P x)} (l : list A) :
  (∀ x, P x) → filter P l = l.
Proof.
  intros HP. induction l as [|x l IH]; [done|].
  by rewrite filter_cons_True, IH.
Qed.

Lemma niLoop_spec (nis : list NetworkInterface.t) :
  ∃ seen,
    niLoop nis =
      (dedupFirst (filter (λ s, s ≠ "") (map subnetOf nis)), seen,
       ipv6Of (withSubnet nis)).
Proof.
  destruct (niLoop_from nis [] ∅ []) as [seen H].
  exists seen. unfold niLoop. rewrite H. simpl.
  rewrite filter_all; [done|]. intros x. unfold index_bool.
  by rewrite lookup_empty.
Qed.

End NetworkInterfaces.

(** ** What [dedupFirst] computes *)

Lemma elem_of_dedupFirst (l : list string) (x : string) :
  x ∈ dedupFirst l ↔ x ∈ l.
Proof.
  induction l as [|y l IH]; simpl; [done|].
  rewrite !elem_of_cons, list_elem_of_filter, IH.
  destruct (decide (x = y)); naive_solver.
Qed.

Lemma NoDup_dedupFirst (l : list string) : NoDup (dedupFirst l).
Proof.
  induction l as [|y l IH]; simpl; [constructor|].
  constructor; [|by apply NoDup_filter].
  rewrite list_elem_of_filter. naive_solver.
Qed.


(** ** Labels that no tag can touch *)

Section Labels.

Variable SanitizeLabelName : string → string.

Local Abbreviation step := (tagStep SanitizeLabelName).
Local Abbreviation tagName := (tagName SanitizeLabelName).

Lemma tagStep_skip m t : ¬ kept t → step m t = m.
Proof.
  intros H. unfold tagStep.
  destruct (len (Tag.Key t) =? 0)%nat eqn:Hk; [done|].
  destruct (len (Tag.Value t) =? 0)%nat eqn:Hv; [done|].
  apply len_ne_0 in Hk, Hv. by destruct H.
Qed.

Lemma tagStep_kept m t : kept t → step m t = <[tagName t := Tag.Value t]> m.
Proof.
  intros [Hk%len_ne_0 Hv%len_ne_0]. unfold tagStep.
  by rewrite Hk, Hv.
Qed.

Lemma tagStep_other m t k : k ≠ tagName t → step m t !! k = m !! k.
Proof.
  intros Hk. destruct (decide (kept t)).
  - rewrite tagStep_kept by done. by rewrite lookup_insert_ne.
  - by rewrite tagStep_skip.
Qed.

Lemma tagLoop_fixed m tags k :
  fixedName k → foldl step m tags !! k = m !! k.
Proof.
  intros Hk. revert m. induction tags as [|t tags IH]; intros m; [done|].
  cbn [foldl]. rewrite IH. apply tagStep_other, Hk.
Qed.

(** The value of a tag label after the loop: that of the last kept tag
    with this label name, if any. *)
Lemma tagLoop_last m l1 t l2 :
  kept t →
  (∀ t', t' ∈ l2 → kept t' → tagName t' ≠ tagName t) →
  foldl step m (l1 ++ t :: l2) !! tagName t = Some (Tag.Value t).
Proof.
  intros Ht Hl2. rewrite foldl_app. cbn [foldl].
  rewrite tagStep_kept by done.
  generalize (foldl step m l1). intros m'.
  assert (<[tagName t:=Tag.Value t]> m' !! tagName t = Some (Tag.Value t)) as H
    by apply lookup_insert_eq.
  revert H. generalize (<[tagName t:=Tag.Value t]> m'). clear m'.
  induction l2 as [|t' l2 IH]; intros m' H; [done|].
  cbn [foldl]. apply IH.
  - intros t'' ? ?. apply Hl2; [by right|done].
  - destruct (decide (kept t')).
    + rewrite tagStep_other; [done|]. intros Heq. by eapply Hl2; [left|..].
    + by rewrite tagStep_skip.
Qed.

(** Every label under the tag prefix that the loop adds comes from a
    kept tag. *)
Lemma tagLoop_origin m tags k v :
  foldl step m tags !! k = Some v →
  m !! k = Some v ∨ ∃ t, t ∈ tags ∧ kept t ∧ tagName t = k ∧ Tag.Value t = v.
Proof.
  revert m. induction tags as [|t tags IH]; intros m H; [by left|].
  cbn [foldl] in H. apply IH in H as [H|(t' & ? & ? & ? & ?)].
  - destruct (decide (kept t)) as [Ht|Ht].
    + rewrite tagStep_kept in H by done.
      rewrite lookup_insert in H. case_decide.
      * right. exists t. simplify_eq. split_and!; [by left|done..].
      * by left.
    + rewrite tagStep_skip in H by done. by left.
  - right. exists t'. split_and!; [by right|done..].
Qed.

Lemma tagLoop_drop_skipped m l1 t l2 :
  ¬ kept t → foldl step m (l1 ++ t :: l2) = foldl step m (l1 ++ l2).
Proof.
  intros Ht. rewrite !foldl_app. cbn [foldl]. by rewrite tagStep_skip.
Qed.

End Labels.

(** ** The label map of one instance *)

Section TargetLabels.

Variable SanitizeLabelName : string → string.

Local Abbreviation labels := (targetLabels SanitizeLabelName).
Local Abbreviation append := (appendTargetLabels SanitizeLabelName).

Lemma appendTargetLabels_skip inst ms ownerID port azMap :
  Instance.PrivateIPAddress inst = "" → append inst ms ownerID port azMap = ms.
Proof. intros H%len_eq_0. unfold appendTargetLabels. by rewrite H. Qed.

Lemma appendTargetLabels_emit inst ms ownerID port azMap :
  Instance.PrivateIPAddress inst ≠ "" →
  append inst ms ownerID port azMap = ms ++ [labels inst ownerID port azMap].
Proof. intros H%len_ne_0. unfold appendTargetLabels. by rewrite H. Qed.

Lemma vpcLabels_no_vpc inst m : Instance.VPCID inst = "" → vpcLabels inst m = m.
Proof.
  intros H. unfold vpcLabels.
  destruct (0 <? len (Instance.VPCID inst))%nat eqn:E; [|done].
  by apply len_pos in E.
Qed.

Lemma vpcLabels_vpc inst m :
  Instance.VPCID inst ≠ "" →
  vpcLabels inst m =
    let m' := <["__meta_ec2_subnet_id" := commaWrapped (dedupFirst (subnetIDs inst))]> m in
    let addrs := ipv6Of (withSubnet (interfaces inst)) in
    if decide (addrs = []) then m'
    else <["__meta_ec2_ipv6_addresses" := commaWrapped addrs]> m'.
Proof.
  intros H%len_pos. unfold vpcLabels. rewrite H.
  destruct (niLoop_spec (interfaces inst)) as [seen Hloop].
  unfold interfaces in *. rewrite Hloop. cbn zeta.
  destruct (0 <? length _)%nat eqn:E.
  - rewrite decide_False; [done|]. intros Hnil. apply length_pos_nil in Hnil.
    congruence.
  - apply length_pos_nil in E. by rewrite decide_True.
Qed.

(** Labels outside the tag prefix are decided before the tag loop. *)
Lemma targetLabels_fixed inst ownerID port azMap k :
  fixedName k →
  labels inst ownerID port azMap !! k =
    vpcLabels inst (baseLabels inst ownerID port azMap) !! k.
Proof. intros Hk. unfold targetLabels. by apply tagLoop_fixed. Qed.

End TargetLabels.

(** Discharges [fixedName k] for a literal [k]. *)
Ltac fixed_name := let H := fresh in intros ? H; discriminate H.


Section LabelClaims.

Variable SanitizeLabelName : string → string.

Local Abbreviation labels := (targetLabels SanitizeLabelName).
Local Abbreviation append := (appendTargetLabels SanitizeLabelName).
Local Abbreviation nameOf := (tagName SanitizeLabelName).

(** C1, as amended.  For an instance with a non-empty private IP and a
    non-empty VPC id, the IPv6 label is absent when the interfaces that
    carry a subnet id have no IPv6 address, and otherwise it is the
    comma-wrapped join of the IPv6 addresses of exactly those interfaces,
    in interface order and in the order within each interface, duplicates
    kept.  Interfaces whose subnet id is empty are skipped by the loop
    before their addresses are read. *)
Theorem ipv6_label_of_subnetted_interfaces inst ms ownerID port azMap :
  Instance.PrivateIPAddress inst ≠ "" →
  Instance.VPCID inst ≠ "" →
  ∃ m, appendTargetLabels SanitizeLabelName inst ms ownerID port azMap
         = ms ++ [m] ∧
       m !! "__meta_ec2_ipv6_addresses" =
         let addrs := ipv6Of (withSubnet (interfaces inst)) in
         if decide (addrs = []) then None else Some (commaWrapped addrs).
Proof.
  intros Hip Hvpc. eexists. split; [by apply appendTargetLabels_emit|].
  rewrite targetLabels_fixed by fixed_name.
  rewrite vpcLabels_vpc by done. cbn zeta.
  case_decide.
  - by rewrite lookup_insert_ne.
  - by rewrite lookup_insert_eq.
Qed.

Lemma ipv6Of_nonempty nis :
  ipv6Of nis ≠ [] →
  ∃ ni, ni ∈ nis ∧
        Ipv6AddressesSet.Items (NetworkInterface.IPv6AddressesSet ni) ≠ [].
Proof.
  induction nis as [|ni nis IH]; [done|]. unfold ipv6Of. cbn [map concat].
  fold (ipv6Of nis).
  destruct (Ipv6AddressesSet.Items (NetworkInterface.IPv6AddressesSet ni)) eqn:E.
  - intros (ni' & ? & ?)%IH. exists ni'. split; [by right|done].
  - intros _. exists ni. split; [by left|]. by rewrite E.
Qed.

(** C5.  For an instance with a non-empty private IP and a non-empty VPC
    id, the subnet-id label is always present and is the comma-wrapped
    join of the non-empty subnet ids of the interfaces, each once, first
    occurrence first; the IPv6 label is present only when some interface
    has an IPv6 address. *)
Theorem subnet_label_deduplicated inst ms ownerID port azMap :
  Instance.PrivateIPAddress inst ≠ "" →
  Instance.VPCID inst ≠ "" →
  ∃ m, appendTargetLabels SanitizeLabelName inst ms ownerID port azMap
         = ms ++ [m] ∧
       m !! "__meta_ec2_subnet_id" =
         Some (commaWrapped (dedupFirst (subnetIDs inst))) ∧
       (is_Some (m !! "__meta_ec2_ipv6_addresses") →
        ∃ ni, ni ∈ interfaces inst ∧
              Ipv6AddressesSet.Items (NetworkInterface.IPv6AddressesSet ni) ≠ []).
Proof.
  intros Hip Hvpc. eexists. split; [by apply appendTargetLabels_emit|].
  rewrite !targetLabels_fixed by fixed_name.
  rewrite vpcLabels_vpc by done. cbn zeta. split.
  - case_decide.
    + by rewrite lookup_insert_eq.
    + rewrite lookup_insert_ne by done. by rewrite lookup_insert_eq.
  - case_decide as Haddrs.
    + rewrite lookup_insert_ne by done. intros [? ?]. done.
    + intros _. apply ipv6Of_nonempty in Haddrs as (ni & Hni & ?).
      exists ni. split; [|done].
      unfold withSubnet in Hni. by apply list_elem_of_filter in Hni as [_ ?].
Qed.

(** C10.  For an instance with a non-empty private IP and an empty VPC
    id, the label map has neither the subnet-id label nor the IPv6 label,
    whatever its interfaces carry, and the VPC-id label is present with
    the empty value. *)
Theorem no_vpc_no_interface_labels inst ms ownerID port azMap :
  Instance.PrivateIPAddress inst ≠ "" →
  Instance.VPCID inst = "" →
  ∃ m, appendTargetLabels SanitizeLabelName inst ms ownerID port azMap
         = ms ++ [m] ∧
       m !! "__meta_ec2_subnet_id" = None ∧
       m !! "__meta_ec2_ipv6_addresses" = None ∧
       m !! "__meta_ec2_vpc_id" = Some "".
Proof.
  intros Hip Hvpc. eexists. split; [by apply appendTargetLabels_emit|].
  rewrite !targetLabels_fixed by fixed_name.
  rewrite vpcLabels_no_vpc by done.
  split_and!; [reflexivity..|].
  transitivity (Some (Instance.VPCID inst)); [reflexivity|by rewrite Hvpc].
Qed.

Lemma tagName_inj t t' :
  nameOf t = nameOf t' ↔
  SanitizeLabelName (Tag.Key t) = SanitizeLabelName (Tag.Key t').
Proof.
  unfold tagName. split; [|by intros ->].
  intros H. by apply (inj (String.app tagPrefix)) in H.
Qed.

Lemma vpcLabels_no_tag_label inst ownerID port azMap name :
  vpcLabels inst (baseLabels inst ownerID port azMap) !! (tagPrefix +:+ name)
  = None.
Proof.
  assert (baseLabels inst ownerID port azMap !! (tagPrefix +:+ name) = None) as Hb.
  { unfold baseLabels. cbn [list_to_map foldr fst snd curry uncurry].
    repeat (rewrite lookup_insert_ne by discriminate). apply lookup_empty. }
  destruct (decide (Instance.VPCID inst = "")).
  - by rewrite vpcLabels_no_vpc.
  - rewrite vpcLabels_vpc by done. cbn zeta.
    case_decide; repeat (rewrite lookup_insert_ne by discriminate); done.
Qed.

(** C8.  In the label map of an instance: every label under the tag
    prefix comes from a tag with non-empty key and value, named by the
    prefix followed by the sanitized key and valued at the raw tag value;
    a tag with an empty key or an empty value changes nothing; a tag with
    non-empty key and value yields its label unless a later such tag has
    the same sanitized key, in which case the later value is the one
    found. *)
Theorem tag_labels inst ownerID port azMap :
  let m := targetLabels SanitizeLabelName inst ownerID port azMap in
  (∀ name v, m !! (tagPrefix +:+ name) = Some v →
     ∃ t, t ∈ tags inst ∧ kept t ∧
          SanitizeLabelName (Tag.Key t) = name ∧ Tag.Value t = v) ∧
  (∀ l1 t l2, tags inst = l1 ++ t :: l2 →
     Tag.Key t = "" ∨ Tag.Value t = "" →
     m = targetLabels SanitizeLabelName (withTags inst (l1 ++ l2)) ownerID port
           azMap) ∧
  (∀ l1 t l2, tags inst = l1 ++ t :: l2 →
     Tag.Key t ≠ "" → Tag.Value t ≠ "" →
     (∀ t', t' ∈ l2 → kept t' →
        SanitizeLabelName (Tag.Key t') ≠ SanitizeLabelName (Tag.Key t)) →
     m !! (tagPrefix +:+ SanitizeLabelName (Tag.Key t)) = Some (Tag.Value t)) ∧
  (∀ l1 t1 l2 t2 l3, tags inst = l1 ++ t1 :: l2 ++ t2 :: l3 →
     kept t1 → kept t2 →
     SanitizeLabelName (Tag.Key t1) = SanitizeLabelName (Tag.Key t2) →
     (∀ t', t' ∈ l3 → kept t' →
        SanitizeLabelName (Tag.Key t') ≠ SanitizeLabelName (Tag.Key t2)) →
     m !! (tagPrefix +:+ SanitizeLabelName (Tag.Key t1)) = Some (Tag.Value t2)).
Proof.
  cbn zeta.
  assert (∀ l1 t l2, tags inst = l1 ++ t :: l2 → kept t →
            (∀ t', t' ∈ l2 → kept t' →
               SanitizeLabelName (Tag.Key t') ≠ SanitizeLabelName (Tag.Key t)) →
            labels inst ownerID port azMap
              !! (tagPrefix +:+ SanitizeLabelName (Tag.Key t))
            = Some (Tag.Value t)) as Hlast.
  { intros l1 t l2 Htags Ht Hl2. unfold targetLabels. fold (tags inst).
    rewrite Htags. apply (tagLoop_last SanitizeLabelName); [done|].
    intros t' ? ?. rewrite tagName_inj. by apply Hl2. }
  split_and!.
  - intros name v H. unfold targetLabels in H.
    apply tagLoop_origin in H as [H|(t & ? & ? & Hn & ?)].
    + by rewrite vpcLabels_no_tag_label in H.
    + exists t. split_and!; try done.
      unfold tagName in Hn. by apply (inj (String.app tagPrefix)) in Hn.
  - intros l1 t l2 Htags Hempty. unfold targetLabels.
    fold (tags inst). rewrite Htags.
    rewrite tagLoop_drop_skipped; [done|].
    unfold kept. naive_solver.
  - intros l1 t l2 Htags Hk Hv Hl2. by apply (Hlast l1 t l2).
  - intros l1 t1 l2 t2 l3 Htags Ht1 Ht2 Heq Hl3. rewrite Heq.
    apply (Hlast (l1 ++ t1 :: l2) t2 l3); [|done..].
    by rewrite <- app_assoc.
Qed.

End LabelClaims.

(** ** The discovery call *)

Section DiscoveryClaims.

Variable SanitizeLabelName : string → string.
Variable endpoint : History → Request.t → string * option error.
Variable xmlUnmarshalInstances : string → InstancesResponse.t * option error.
Variable xmlUnmarshalZones : string → AvailabilityZonesResponse.t * option error.

Local Abbreviation labels := (targetLabels SanitizeLabelName).
Local Abbreviation append := (appendTargetLabels SanitizeLabelName).
Local Abbreviation allLabels := (instancesLabels SanitizeLabelName).
Local Abbreviation parse := (parseInstancesResponse xmlUnmarshalInstances).
Local Abbreviation loop := (getReservationsLoop endpoint xmlUnmarshalInstances).
Local Abbreviation reservations := (getReservations endpoint xmlUnmarshalInstances).
Local Abbreviation zoneList := (getAvailabilityZones endpoint xmlUnmarshalZones).
Local Abbreviation zoneMap := (getAZMap endpoint xmlUnmarshalZones).
Local Abbreviation discover :=
  (getInstancesLabels SanitizeLabelName endpoint xmlUnmarshalInstances
     xmlUnmarshalZones).
Local Abbreviation served := (serves endpoint xmlUnmarshalInstances).
Local Abbreviation failed := (pageFailure endpoint xmlUnmarshalInstances).
Local Abbreviation nextToken := InstancesResponse.NextPageToken.

(** *** The nested loops over reservations and instances *)

Lemma instanceLoop_spec ownerID port azMap insts ms :
  foldl (λ ms inst, append inst ms ownerID port azMap) ms insts =
    ms ++ map (λ oi, labels oi.2 oi.1 port azMap)
              (filter addressable (map (pair ownerID) insts)).
Proof.
  revert ms. induction insts as [|inst insts IH]; intros ms.
  - simpl. by rewrite app_nil_r.
  - cbn [foldl map]. rewrite IH.
    destruct (decide (Instance.PrivateIPAddress inst = "")) as [Hip|Hip].
    + rewrite appendTargetLabels_skip by done.
      by rewrite filter_cons_False by (intros H; by apply H).
    + rewrite appendTargetLabels_emit by done.
      rewrite filter_cons_True by done. by rewrite <- app_assoc.
Qed.

Lemma instancesLabels_spec rs port azMap :
  allLabels rs port azMap =
    map (λ oi, labels oi.2 oi.1 port azMap)
        (filter addressable (instancesOf rs)).
Proof.
  unfold instancesLabels.
  change (map (λ oi, labels oi.2 oi.1 port azMap)
              (filter addressable (instancesOf rs)))
    with ([] ++ map (λ oi, labels oi.2 oi.1 port azMap)
                    (filter addressable (instancesOf rs))).
  generalize (@nil LabelMap).
  induction rs as [|r rs IH]; intros ms.
  - simpl. by rewrite app_nil_r.
  - cbn [foldl]. rewrite IH, instanceLoop_spec. unfold instancesOf.
    cbn [map concat]. by rewrite filter_app, map_app, app_assoc.
Qed.

Lemma baseLabels_fixed inst ownerID port azMap :
  fixedLabels (baseLabels inst ownerID port azMap) inst ownerID port azMap.
Proof. unfold fixedLabels. split_and!; reflexivity. Qed.

Lemma vpcLabels_fixed inst ownerID port azMap m :
  fixedLabels m inst ownerID port azMap →
  fixedLabels (vpcLabels inst m) inst ownerID port azMap.
Proof.
  intros H. destruct (decide (Instance.VPCID inst = "")).
  - by rewrite vpcLabels_no_vpc.
  - rewrite vpcLabels_vpc by done. cbn zeta. unfold fixedLabels in *.
    case_decide; repeat (rewrite lookup_insert_ne by done); done.
Qed.

Lemma targetLabels_fixedLabels inst ownerID port azMap :
  fixedLabels (labels inst ownerID port azMap) inst ownerID port azMap.
Proof.
  pose proof (vpcLabels_fixed inst ownerID port azMap _
                (baseLabels_fixed inst ownerID port azMap)) as H.
  unfold fixedLabels in *.
  rewrite !targetLabels_fixed by fixed_name. exact H.
Qed.

(** *** The paginated fetch *)

Lemma loop_step_transport fuel rs tok w data err :
  endpoint w (instancesRequest tok) = (data, Some err) →
  loop (S fuel) rs tok w =
    Some ([], Some (Errorf "cannot obtain instances: %w" [] err),
          w ++ [instancesRequest tok]).
Proof.
  intros H. cbn [getReservationsLoop]. unfold getEC2APIResponse.
  fold (instancesRequest tok). by rewrite H.
Qed.

Lemma loop_step_parse fuel rs tok w data err :
  endpoint w (instancesRequest tok) = (data, None) →
  parse data = Err err →
  loop (S fuel) rs tok w =
    Some ([], Some (Errorf "cannot parse instance list: %w" [] err),
          w ++ [instancesRequest tok]).
Proof.
  intros H Hp. cbn [getReservationsLoop]. unfold getEC2APIResponse.
  fold (instancesRequest tok). by rewrite H, Hp.
Qed.

Lemma loop_step_last fuel rs tok w data ir :
  endpoint w (instancesRequest tok) = (data, None) →
  parse data = Ok ir →
  nextToken ir = "" →
  loop (S fuel) rs tok w =
    Some (rs ++ ReservationSet.Items (InstancesResponse.ReservationSet ir),
          None, w ++ [instancesRequest tok]).
Proof.
  intros H Hp Hn%len_eq_0. cbn [getReservationsLoop]. unfold getEC2APIResponse.
  fold (instancesRequest tok). by rewrite H, Hp, Hn.
Qed.

Lemma loop_step_more fuel rs tok w data ir :
  endpoint w (instancesRequest tok) = (data, None) →
  parse data = Ok ir →
  nextToken ir ≠ "" →
  loop (S fuel) rs tok w =
    loop fuel (rs ++ ReservationSet.Items (InstancesResponse.ReservationSet ir))
         (nextToken ir) (w ++ [instancesRequest tok]).
Proof.
  intros H Hp Hn%len_ne_0. cbn [getReservationsLoop]. unfold getEC2APIResponse.
  fold (instancesRequest tok). by rewrite H, Hp, Hn.
Qed.

(** Reading the pages of a scenario whose last page has no next-token. *)
Lemma loop_pages pages : ∀ fuel rs tok w last,
  served w tok (pages ++ [last]) →
  Forall (λ ir, nextToken ir ≠ "") pages →
  nextToken last = "" →
  (length pages < fuel)%nat →
  loop fuel rs tok w =
    Some (rs ++ reservationsOf (pages ++ [last]), None,
          w ++ requestsOf tok (pages ++ [last])).
Proof.
  induction pages as [|ir pages IH]; intros fuel rs tok w last Hs Hne Hlast Hfuel.
  - destruct fuel as [|fuel]; [simpl in Hfuel; lia|].
    destruct Hs as [(data & Hd & Hp) _].
    rewrite (loop_step_last _ _ _ _ _ _ Hd Hp Hlast).
    unfold reservationsOf. simpl. by rewrite app_nil_r.
  - destruct fuel as [|fuel]; [simpl in Hfuel; lia|].
    destruct Hs as [(data & Hd & Hp) Hs].
    apply Forall_cons in Hne as [Hir Hne].
    rewrite (loop_step_more _ _ _ _ _ _ Hd Hp Hir).
    rewrite (IH fuel _ _ _ last Hs Hne Hlast) by (simpl in Hfuel; lia).
    unfold reservationsOf. cbn [app map concat requestsOf].
    by rewrite <- !app_assoc.
Qed.

(** Reading the pages of a scenario whose next request fails. *)
Lemma loop_failure pages : ∀ fuel rs tok w err,
  served w tok pages →
  Forall (λ ir, nextToken ir ≠ "") pages →
  failed (w ++ requestsOf tok pages) (tokenAfter tok pages) err →
  (length pages < fuel)%nat →
  loop fuel rs tok w =
    Some ([], Some err,
          w ++ requestsOf tok pages ++ [instancesRequest (tokenAfter tok pages)]).
Proof.
  induction pages as [|ir pages IH]; intros fuel rs tok w err Hs Hne Hf Hfuel.
  - destruct fuel as [|fuel]; [simpl in Hfuel; lia|].
    cbn [requestsOf tokenAfter app] in *. rewrite app_nil_r in Hf.
    destruct Hf as [data e Hd|data e Hd Hp].
    + by rewrite (loop_step_transport _ _ _ _ _ _ Hd).
    + by rewrite (loop_step_parse _ _ _ _ _ _ Hd Hp).
  - destruct fuel as [|fuel]; [simpl in Hfuel; lia|].
    destruct Hs as [(data & Hd & Hp) Hs].
    apply Forall_cons in Hne as [Hir Hne].
    rewrite (loop_step_more _ _ _ _ _ _ Hd Hp Hir).
    cbn [requestsOf tokenAfter] in *.
    rewrite (IH fuel _ _ _ err Hs Hne).
    + by rewrite <- !app_assoc.
    + by rewrite <- app_assoc.
    + simpl in Hfuel. lia.
Qed.

Lemma requestsOf_tokens tok pages last :
  requestsOf tok (pages ++ [last]) =
    map instancesRequest (tok :: map nextToken pages).
Proof.
  revert tok. induction pages as [|ir pages IH]; intros tok; [done|].
  cbn [app requestsOf map]. by rewrite IH.
Qed.

(** C6.  The fetch starts from the empty token and requests each further
    page with the next-token of the page before; when the endpoint serves
    a sequence of pages of which only the last has an empty next-token,
    the fetch returns, without error, the reservations of all the pages in
    page order, and has issued exactly one request per page. *)
Theorem getReservations_concatenates_pages fuel w pages last :
  serves endpoint xmlUnmarshalInstances w "" (pages ++ [last]) →
  Forall (λ ir, InstancesResponse.NextPageToken ir ≠ "") pages →
  InstancesResponse.NextPageToken last = "" →
  (length pages < fuel)%nat →
  getReservations endpoint xmlUnmarshalInstances fuel w =
    Some (reservationsOf (pages ++ [last]), None,
          w ++ map instancesRequest
                   ("" :: map InstancesResponse.NextPageToken pages)).
Proof.
  intros Hs Hne Hlast Hfuel. unfold getReservations.
  rewrite (loop_pages pages fuel [] "" w last) by done.
  by rewrite requestsOf_tokens.
Qed.

(** Whenever the fetch returns an error, it returns no reservations, and
    the error wraps its cause. *)
Lemma loop_error_nil fuel : ∀ rs tok w rs' err w',
  loop fuel rs tok w = Some (rs', Some err, w') →
  rs' = [] ∧ is_Some (Unwrap err).
Proof.
  induction fuel as [|fuel IH]; intros rs tok w rs' err w'; [done|].
  cbn [getReservationsLoop]. unfold getEC2APIResponse.
  destruct (endpoint w _) as [data [e|]].
  - intros [= <- <- <-]. by split.
  - destruct (parse data) as [ir|e].
    + destruct (len (nextToken ir) =? 0)%nat; [done|]. apply IH.
    + intros [= <- <- <-]. by split.
Qed.

(** C7.  When, after any number of pages read without error, the request
    for the next page fails in the transport or in the parser, the fetch
    returns that failure wrapped and no reservations, and the discovery
    call returns the same error and no label map, with the config left as
    it was: what the earlier pages delivered is dropped. *)
Theorem fetch_failure_discards_pages fuel cfg w pages err :
  serves endpoint xmlUnmarshalInstances w "" pages →
  Forall (λ ir, InstancesResponse.NextPageToken ir ≠ "") pages →
  pageFailure endpoint xmlUnmarshalInstances (w ++ requestsOf "" pages)
    (tokenAfter "" pages) err →
  (length pages < fuel)%nat →
  ∃ w', getReservations endpoint xmlUnmarshalInstances fuel w
          = Some ([], Some err, w') ∧
        getInstancesLabels SanitizeLabelName endpoint xmlUnmarshalInstances
          xmlUnmarshalZones fuel cfg w
          = Some ([], Some err, cfg, w') ∧
        is_Some (Unwrap err).
Proof.
  intros Hs Hne Hf Hfuel. eexists.
  assert (reservations fuel w = Some ([], Some err, w ++ requestsOf "" pages ++
            [instancesRequest (tokenAfter "" pages)])) as Hr
    by (by apply loop_failure).
  split_and!; [exact Hr| |].
  - unfold getInstancesLabels. by rewrite Hr.
  - by destruct Hf.
Qed.

(** *** The zone cache *)

Local Abbreviation zoneInsert :=
  (λ (m : gmap string string) az,
     <[AvailabilityZone.ZoneName az := AvailabilityZone.ZoneID az]> m).

Lemma getAZMap_cached cfg w m :
  apiConfig.azMap cfg = Some m → zoneMap cfg w = (m, cfg, w).
Proof. intros H. unfold getAZMap. by rewrite H. Qed.

Lemma getAZMap_unresolved cfg w :
  apiConfig.azMap cfg = None →
  zoneMap cfg w =
    let '(azs, err, w') := zoneList w in
    let m := match err with Some _ => ∅ | None => foldl zoneInsert ∅ azs end in
    (m, apiConfig.mk (apiConfig.port cfg) (Some m), w').
Proof.
  intros H. unfold getAZMap. rewrite H.
  destruct (zoneList w) as [[azs [e|]] w']; done.
Qed.

Lemma getAvailabilityZones_log w :
  (zoneList w).2 = w ++ [zonesRequest].
Proof.
  unfold getAvailabilityZones, getEC2APIResponse. fold zonesRequest.
  destruct (endpoint w zonesRequest) as [data [e|]]; [done|].
  by destruct (parseAvailabilityZonesResponse _ data).
Qed.

Lemma getAZMap_populates cfg w :
  apiConfig.azMap (zoneMap cfg w).1.2 = Some (zoneMap cfg w).1.1 ∧
  apiConfig.port (zoneMap cfg w).1.2 = apiConfig.port cfg.
Proof.
  destruct (apiConfig.azMap cfg) as [m|] eqn:E.
  - by rewrite (getAZMap_cached _ _ _ E).
  - rewrite (getAZMap_unresolved _ _ E).
    by destruct (zoneList w) as [[azs [e|]] w'].
Qed.

Lemma zoneFold_origin azs : ∀ (m : gmap string string) name id,
  foldl zoneInsert m azs !! name = Some id →
  m !! name = Some id ∨
  ∃ az, az ∈ azs ∧ AvailabilityZone.ZoneName az = name ∧
        AvailabilityZone.ZoneID az = id.
Proof.
  induction azs as [|az azs IH]; intros m name id H; [by left|].
  cbn [foldl] in H. apply IH in H as [H|(az' & ? & ? & ?)].
  - rewrite lookup_insert in H. case_decide; simplify_eq.
    + right. exists az. split_and!; [by left|done..].
    + by left.
  - right. exists az'. split_and!; [by right|done..].
Qed.

Lemma zoneFold_keeps azs : ∀ (m : gmap string string) name,
  is_Some (m !! name) → is_Some (foldl zoneInsert m azs !! name).
Proof.
  induction azs as [|az azs IH]; intros m name H; [done|].
  cbn [foldl]. apply IH. rewrite lookup_insert. by case_decide.
Qed.

Lemma zoneFold_dom azs : ∀ (m : gmap string string) az,
  az ∈ azs → is_Some (foldl zoneInsert m azs !! AvailabilityZone.ZoneName az).
Proof.
  induction azs as [|az' azs IH]; intros m az Hin; [by apply elem_of_nil in Hin|].
  cbn [foldl]. apply elem_of_cons in Hin as [->|Hin].
  - apply zoneFold_keeps. by rewrite lookup_insert_eq.
  - by apply IH.
Qed.

(** C3, as amended.  The first access to the zone map of a config issues
    exactly one request, for the zone list with the empty token; the
    mapping is built from the zones of that one response and from nothing
    else: every zone of the response is mapped, and every entry of the
    mapping comes from a zone of the response. *)
Theorem zone_fetch_is_one_request cfg w :
  apiConfig.azMap cfg = None →
  let '(m, cfg', w') := getAZMap endpoint xmlUnmarshalZones cfg w in
  w' = w ++ [Request.mk "DescribeAvailabilityZones" ""] ∧
  ∀ data azr,
    endpoint w (Request.mk "DescribeAvailabilityZones" "") = (data, None) →
    parseAvailabilityZonesResponse xmlUnmarshalZones data = Ok azr →
    let azs := AvailabilityZoneInfo.Items
                 (AvailabilityZonesResponse.AvailabilityZoneInfo azr) in
    (∀ az, az ∈ azs → is_Some (m !! AvailabilityZone.ZoneName az)) ∧
    (∀ name id, m !! name = Some id →
       ∃ az, az ∈ azs ∧ AvailabilityZone.ZoneName az = name ∧
             AvailabilityZone.ZoneID az = id).
Proof.
  intros Hcfg. rewrite (getAZMap_unresolved _ _ Hcfg).
  pose proof (getAvailabilityZones_log w) as Hlog.
  destruct (zoneList w) as [[azs err] w'] eqn:Hz. simpl in Hlog.
  split; [done|]. intros data azr Hd Hp.
  unfold getAvailabilityZones, getEC2APIResponse in Hz.
  rewrite Hd, Hp in Hz. injection Hz as <- <- _. cbn zeta. split.
  - intros az Hin. by apply zoneFold_dom.
  - intros name id H. apply zoneFold_origin in H as [H|H]; [|done].
    by rewrite lookup_empty in H.
Qed.

Lemma discover_unfold fuel cfg w rs err w1 :
  reservations fuel w = Some (rs, err, w1) →
  discover fuel cfg w =
    match err with
    | Some e => Some ([], Some e, cfg, w1)
    | None =>
        Some (allLabels rs (apiConfig.port cfg) (zoneMap cfg w1).1.1, None,
              (zoneMap cfg w1).1.2, (zoneMap cfg w1).2)
    end.
Proof.
  intros H. unfold getInstancesLabels. rewrite H.
  destruct err; [done|]. by destruct (zoneMap cfg w1) as [[? ?] ?].
Qed.

(** C4.  An access to the zone map leaves the cache populated, possibly
    with the empty map; every later access returns the cached map and
    issues no request, also when the first fetch failed; a failed fetch
    caches the empty map, under which every zone name looks up to the
    empty identifier; a later discovery call issues the requests of its
    reservation fetch and no other, and labels every instance with the
    empty zone identifier when the cached map is empty; and the error of
    a discovery call is the error of its reservation fetch, never one of
    the zone fetch. *)
Theorem zone_resolution_is_resolve_once cfg w :
  let '(m1, cfg1, w1) := getAZMap endpoint xmlUnmarshalZones cfg w in
  apiConfig.azMap cfg1 = Some m1 ∧
  (∀ w2, getAZMap endpoint xmlUnmarshalZones cfg1 w2 = (m1, cfg1, w2)) ∧
  (apiConfig.azMap cfg = None →
   ∀ azs e w',
     getAvailabilityZones endpoint xmlUnmarshalZones w = (azs, Some e, w') →
     m1 = ∅ ∧ ∀ zone, index m1 zone = "") ∧
  (∀ fuel w2 rs err w3,
     getReservations endpoint xmlUnmarshalInstances fuel w2 = Some (rs, err, w3) →
     ∃ ms, getInstancesLabels SanitizeLabelName endpoint xmlUnmarshalInstances
             xmlUnmarshalZones fuel cfg1 w2
             = Some (ms, err, cfg1, w3) ∧
           (m1 = ∅ →
            Forall (λ m, m !! "__meta_ec2_availability_zone_id" = Some "") ms)) ∧
  (∀ fuel rs err w',
     getReservations endpoint xmlUnmarshalInstances fuel w = Some (rs, err, w') →
     ∃ ms cfg' w'',
       getInstancesLabels SanitizeLabelName endpoint xmlUnmarshalInstances
         xmlUnmarshalZones fuel cfg w
         = Some (ms, err, cfg', w'')).
Proof.
  pose proof (getAZMap_populates cfg w) as [Hpop _].
  destruct (zoneMap cfg w) as [[m1 cfg1] w1] eqn:Hz. simpl in Hpop.
  split_and!.
  - done.
  - intros w2. by apply getAZMap_cached.
  - intros Hcfg azs e w' Hfail.
    rewrite (getAZMap_unresolved _ _ Hcfg), Hfail in Hz.
    injection Hz as <- _ _. split; [done|].
    intros zone. unfold index. by rewrite lookup_empty.
  - intros fuel w2 rs err w3 Hr.
    rewrite (discover_unfold _ _ _ _ _ _ Hr).
    rewrite (getAZMap_cached _ w3 _ Hpop). simpl.
    destruct err as [e|]; eexists; (split; [done|]); intros Hm; [done|].
    rewrite instancesLabels_spec. apply Forall_map, Forall_forall.
    intros [ownerID inst] _. simpl.
    destruct (targetLabels_fixedLabels inst ownerID (apiConfig.port cfg1) m1)
      as (_ & _ & _ & _ & Hid & _).
    rewrite Hid, Hm. by rewrite lookup_empty.
  - intros fuel rs err w' Hr. rewrite (discover_unfold _ _ _ _ _ _ Hr).
    destruct err; eauto.
Qed.

(** *** The output of the discovery call *)

(** C2.  An instance with an empty private IP adds no label map, an
    instance with a non-empty private IP adds exactly one, whose address
    label is the private IP and the configured port joined by a colon; so
    the discovery call returns as many label maps as there are instances
    with a non-empty private IP, in the order of the instances, each with
    that address label. *)
Theorem one_label_map_per_addressable_instance fuel cfg w rs w1 :
  getReservations endpoint xmlUnmarshalInstances fuel w = Some (rs, None, w1) →
  (∀ inst ms ownerID port azMap,
     Instance.PrivateIPAddress inst = "" →
     appendTargetLabels SanitizeLabelName inst ms ownerID port azMap = ms) ∧
  (∀ inst ms ownerID port azMap,
     Instance.PrivateIPAddress inst ≠ "" →
     ∃ m, appendTargetLabels SanitizeLabelName inst ms ownerID port azMap
         = ms ++ [m] ∧
          m !! "__address__" =
            Some (Instance.PrivateIPAddress inst +:+ ":" +:+ pretty port)) ∧
  ∃ ms cfg' w',
    getInstancesLabels SanitizeLabelName endpoint xmlUnmarshalInstances
      xmlUnmarshalZones fuel cfg w = Some (ms, None, cfg', w') ∧
    length ms = length (filter addressable (instancesOf rs)) ∧
    Forall2 (λ m oi,
               m !! "__address__" =
                 Some (Instance.PrivateIPAddress oi.2 +:+ ":" +:+
                       pretty (apiConfig.port cfg)))
            ms (filter addressable (instancesOf rs)).
Proof.
  intros Hr. split_and!.
  - intros. by apply appendTargetLabels_skip.
  - intros inst ms ownerID port azMap Hip. eexists.
    split; [by apply appendTargetLabels_emit|].
    by destruct (targetLabels_fixedLabels inst ownerID port azMap) as [? _].
  - rewrite (discover_unfold _ _ _ _ _ _ Hr). do 3 eexists.
    split; [done|]. rewrite instancesLabels_spec. split.
    + by rewrite length_map.
    + apply Forall2_fmap_l, Forall_Forall2_diag, Forall_forall.
      intros [ownerID inst] _. simpl.
      by destruct (targetLabels_fixedLabels inst ownerID (apiConfig.port cfg)
                     (zoneMap cfg w1).1.1) as [? _].
Qed.

(** C9.  Every label map returned by the discovery call is the label map
    of an instance of the fetched reservations that has a non-empty
    private IP; its address label is not empty, and it carries the sixteen
    per-attribute labels with the values of that instance, the zone
    identifier being the entry of the zone map at the zone name, or the
    empty string when there is none. *)
Theorem label_maps_carry_fixed_labels fuel cfg w ms err cfg' w' :
  getInstancesLabels SanitizeLabelName endpoint xmlUnmarshalInstances
    xmlUnmarshalZones fuel cfg w = Some (ms, err, cfg', w') →
  ∃ rs w1,
    getReservations endpoint xmlUnmarshalInstances fuel w = Some (rs, err, w1) ∧
    Forall (λ m,
              ∃ ownerID inst addr,
                (ownerID, inst) ∈ instancesOf rs ∧
                Instance.PrivateIPAddress inst ≠ "" ∧
                m !! "__address__" = Some addr ∧ addr ≠ "" ∧
                fixedLabels m inst ownerID (apiConfig.port cfg)
                  (default ∅ (apiConfig.azMap cfg')))
           ms.
Proof.
  intros Hd. destruct (reservations fuel w) as [[[rs err1] w1]|] eqn:Hr.
  2:{ unfold getInstancesLabels in Hd. by rewrite Hr in Hd. }
  rewrite (discover_unfold _ _ _ _ _ _ Hr) in Hd.
  pose proof (getAZMap_populates cfg w1) as [Hpop _].
  destruct err1 as [e|]; injection Hd as <- <- <- <-.
  - exists rs, w1. by split.
  - exists rs, w1. split; [done|]. rewrite Hpop. simpl.
    rewrite instancesLabels_spec. apply Forall_map, Forall_forall.
    intros [ownerID inst] [Hip Hin]%list_elem_of_filter. simpl.
    pose proof (targetLabels_fixedLabels inst ownerID (apiConfig.port cfg)
                  (zoneMap cfg w1).1.1) as Hfix.
    exists ownerID, inst. eexists. split_and!; [done|done|apply Hfix| |done].
    by apply append_nonempty_l.
Qed.

End DiscoveryClaims.

(** * The model on the sample deployment *)

Section SampleRuns.

Local Abbreviation sanitize := Sample.SanitizeLabelName.
Local Abbreviation labelsOf :=
  (λ inst, targetLabels Sample.SanitizeLabelName inst "owner-1" 9100 ∅).
Local Abbreviation discoverAt :=
  (λ endpoint,
     getInstancesLabels Sample.SanitizeLabelName endpoint
       Sample.unmarshalInstances Sample.unmarshalZones).

(** The examples of the spec. *)

Example subnets_s1_s1_s2_empty_s3 :
  labelsOf Sample.manySubnets !! "__meta_ec2_subnet_id" = Some ",s1,s2,s3,".
Proof. reflexivity. Qed.

Example no_interface_renders_two_commas :
  labelsOf Sample.bare !! "__meta_ec2_subnet_id" = Some ",," ∧
  labelsOf Sample.bare !! "__meta_ec2_ipv6_addresses" = None.
Proof. split; reflexivity. Qed.

Example ipv6_a_b_empty_c :
  ipv6Of (interfaces Sample.web) = ["a"; "b"; "c"] ∧
  labelsOf Sample.web !! "__meta_ec2_ipv6_addresses" = Some ",a,b,c,".
Proof. split; reflexivity. Qed.

Example tag_key_is_sanitized :
  sanitize "Env:Prod" = "Env_Prod" ∧
  labelsOf Sample.web !! "__meta_ec2_tag_Env_Prod" = Some "2" ∧
  labelsOf Sample.web !! "__meta_ec2_tag_Env:Prod" = None ∧
  labelsOf Sample.web !! "__meta_ec2_tag_Name" = Some "web" ∧
  labelsOf Sample.web !! "__meta_ec2_tag_" = None.
Proof. split_and!; reflexivity. Qed.

Example three_pages_in_order :
  getReservations Sample.endpoint Sample.unmarshalInstances 3 [] =
    Some (reservationsOf [Sample.page1; Sample.page2; Sample.page3], None,
          [instancesRequest ""; instancesRequest "t2"; instancesRequest "t3"]).
Proof. reflexivity. Qed.

Example fuel_exhausted_before_last_page :
  getReservations Sample.endpoint Sample.unmarshalInstances 2 [] = None.
Proof. reflexivity. Qed.

Example parse_failure_is_wrapped_twice :
  getReservations (Sample.tableEndpoint [("DescribeInstances", "", "<junk>")])
    Sample.unmarshalInstances 1 [] =
    Some ([],
          Some (Errorf "cannot parse instance list: %w" []
                  (Errorf "cannot unmarshal InstancesResponse from %q: %w"
                     ["<junk>"] (ExternalError "XML syntax error"))),
          [instancesRequest ""]).
Proof. reflexivity. Qed.

End SampleRuns.

(** ** Counterexamples to the claims that the code does not meet *)

(** C1 as stated fails: the instance has a non-empty private IP and VPC
    id, its interfaces carry the IPv6 addresses a, b and c, the last one on
    an interface without subnet id; the label is [,a,b,] and not the join
    [,a,b,c,] of the addresses of every interface. *)
Lemma ipv6_of_interface_without_subnet_is_dropped :
  Instance.PrivateIPAddress Sample.detached ≠ "" ∧
  Instance.VPCID Sample.detached ≠ "" ∧
  commaWrapped (ipv6Of (interfaces Sample.detached)) = ",a,b,c," ∧
  ∃ m, appendTargetLabels Sample.SanitizeLabelName Sample.detached []
         "owner-1" 9100 ∅ = [m] ∧
       m !! "__meta_ec2_ipv6_addresses" = Some ",a,b," ∧
       m !! "__meta_ec2_ipv6_addresses" ≠
         Some (commaWrapped (ipv6Of (interfaces Sample.detached))).
Proof.
  split_and!; [done|done|reflexivity|].
  eexists. split_and!; [reflexivity|reflexivity|].
  vm_compute. discriminate.
Qed.

(** C3 as stated fails: the first zone-list document carries the
    continuation token z2 and the endpoint holds a second page under that
    token, with the zone us-east-1b; the zone map is built after a single
    request and does not contain that zone. *)
Lemma zone_fetch_stops_after_first_page :
  (∃ doc, Sample.zoneDocuments !! 0%nat = Some ("<zones1>", doc) ∧
          Sample.nextToken doc = "z2") ∧
  Sample.endpoint [zonesRequest] (Request.mk "DescribeAvailabilityZones" "z2")
    = ("<zones2>", None) ∧
  parseAvailabilityZonesResponse Sample.unmarshalZones "<zones2>" =
    Ok (Sample.zones [AvailabilityZone.mk "us-east-1b" "use1-az2"]) ∧
  ∃ m cfg',
    getAZMap Sample.endpoint Sample.unmarshalZones Sample.cfg [] =
      (m, cfg', [zonesRequest]) ∧
    m !! "us-east-1a" = Some "use1-az1" ∧
    m !! "us-east-1b" = None.
Proof.
  split_and!; [by eexists|reflexivity|reflexivity|].
  do 2 eexists. split_and!; reflexivity.
Qed.

(** ** The theorems at the sample deployment *)

Lemma ipv6_label_of_subnetted_interfaces_witness :
  Instance.PrivateIPAddress Sample.detached ≠ "" ∧
  Instance.VPCID Sample.detached ≠ "" ∧
  ∃ m, appendTargetLabels Sample.SanitizeLabelName Sample.detached []
         "owner-1" 9100 ∅ = [m] ∧
       m !! "__meta_ec2_ipv6_addresses" = Some ",a,b,".
Proof.
  split; [discriminate|]. split; [discriminate|].
  apply (ipv6_label_of_subnetted_interfaces Sample.SanitizeLabelName
           Sample.detached [] "owner-1" 9100 ∅); discriminate.
Defined.

Lemma subnet_label_deduplicated_witness :
  Instance.PrivateIPAddress Sample.manySubnets ≠ "" ∧
  Instance.VPCID Sample.manySubnets ≠ "" ∧
  ∃ m, appendTargetLabels Sample.SanitizeLabelName Sample.manySubnets []
         "owner-1" 9100 ∅ = [m] ∧
       m !! "__meta_ec2_subnet_id" = Some ",s1,s2,s3,".
Proof.
  split; [discriminate|]. split; [discriminate|].
  destruct (subnet_label_deduplicated Sample.SanitizeLabelName
              Sample.manySubnets [] "owner-1" 9100 ∅) as (m & Hm & Hs & _);
    [discriminate..|].
  exists m. split; [exact Hm|exact Hs].
Defined.

Lemma no_vpc_no_interface_labels_witness :
  Instance.PrivateIPAddress Sample.classic ≠ "" ∧
  Instance.VPCID Sample.classic = "" ∧
  ∃ m, appendTargetLabels Sample.SanitizeLabelName Sample.classic []
         "owner-2" 9100 ∅ = [m] ∧
       m !! "__meta_ec2_subnet_id" = None ∧
       m !! "__meta_ec2_ipv6_addresses" = None ∧
       m !! "__meta_ec2_vpc_id" = Some "".
Proof.
  split; [discriminate|]. split; [reflexivity|].
  apply (no_vpc_no_interface_labels Sample.SanitizeLabelName Sample.classic []
           "owner-2" 9100 ∅); [discriminate|reflexivity].
Defined.

Lemma tag_labels_witness :
  tags Sample.web =
    [Tag.mk "Name" "web"; Tag.mk "" "x"] ++
    Tag.mk "Env:Prod" "1" :: [] ++ Tag.mk "Env_Prod" "2" :: [] ∧
  targetLabels Sample.SanitizeLabelName Sample.web "owner-1" 9100 ∅
    !! (tagPrefix +:+ "Env_Prod") = Some "2".
Proof.
  split; [reflexivity|].
  destruct (tag_labels Sample.SanitizeLabelName Sample.web "owner-1" 9100 ∅)
    as (_ & _ & _ & H).
  apply (H [Tag.mk "Name" "web"; Tag.mk "" "x"] (Tag.mk "Env:Prod" "1") []
           (Tag.mk "Env_Prod" "2") []).
  - reflexivity.
  - split; discriminate.
  - split; discriminate.
  - reflexivity.
  - intros t' Hin. destruct (proj1 (elem_of_nil t') Hin).
Defined.

Lemma getReservations_concatenates_pages_witness :
  serves Sample.endpoint Sample.unmarshalInstances [] ""
    ([Sample.page1; Sample.page2] ++ [Sample.page3]) ∧
  Forall (λ ir, InstancesResponse.NextPageToken ir ≠ "")
    [Sample.page1; Sample.page2] ∧
  InstancesResponse.NextPageToken Sample.page3 = "" ∧
  (length [Sample.page1; Sample.page2] < 3)%nat ∧
  getReservations Sample.endpoint Sample.unmarshalInstances 3 [] =
    Some (reservationsOf ([Sample.page1; Sample.page2] ++ [Sample.page3]), None,
          [] ++ map instancesRequest
                  ("" :: map InstancesResponse.NextPageToken
                           [Sample.page1; Sample.page2])).
Proof.
  assert (serves Sample.endpoint Sample.unmarshalInstances [] ""
            ([Sample.page1; Sample.page2] ++ [Sample.page3])) as Hs.
  { repeat split; eexists; split; reflexivity. }
  assert (Forall (λ ir, InstancesResponse.NextPageToken ir ≠ "")
            [Sample.page1; Sample.page2]) as Hne.
  { repeat constructor; discriminate. }
  split; [exact Hs|]. split; [exact Hne|]. split; [reflexivity|].
  split; [simpl; lia|].
  apply (getReservations_concatenates_pages Sample.endpoint
           Sample.unmarshalInstances 3 [] [Sample.page1; Sample.page2]
           Sample.page3 Hs Hne); [reflexivity|simpl; lia].
Defined.

Lemma fetch_failure_discards_pages_witness :
  serves Sample.brokenEndpoint Sample.unmarshalInstances [] ""
    [Sample.page1; Sample.page2] ∧
  Forall (λ ir, InstancesResponse.NextPageToken ir ≠ "")
    [Sample.page1; Sample.page2] ∧
  pageFailure Sample.brokenEndpoint Sample.unmarshalInstances
    ([] ++ requestsOf "" [Sample.page1; Sample.page2])
    (tokenAfter "" [Sample.page1; Sample.page2])
    (Errorf "cannot obtain instances: %w" [] (ExternalError "connection refused")) ∧
  (length [Sample.page1; Sample.page2] < 3)%nat ∧
  ∃ w', getReservations Sample.brokenEndpoint Sample.unmarshalInstances 3 [] =
          Some ([], Some (Errorf "cannot obtain instances: %w" []
                            (ExternalError "connection refused")), w') ∧
        getInstancesLabels Sample.SanitizeLabelName Sample.brokenEndpoint
          Sample.unmarshalInstances Sample.unmarshalZones 3 Sample.cfg [] =
          Some ([], Some (Errorf "cannot obtain instances: %w" []
                            (ExternalError "connection refused")),
                Sample.cfg, w') ∧
        is_Some (Unwrap (Errorf "cannot obtain instances: %w" []
                           (ExternalError "connection refused"))).
Proof.
  assert (serves Sample.brokenEndpoint Sample.unmarshalInstances [] ""
            [Sample.page1; Sample.page2]) as Hs.
  { repeat split; eexists; split; reflexivity. }
  assert (Forall (λ ir, InstancesResponse.NextPageToken ir ≠ "")
            [Sample.page1; Sample.page2]) as Hne.
  { repeat constructor; discriminate. }
  assert (pageFailure Sample.brokenEndpoint Sample.unmarshalInstances
            ([] ++ requestsOf "" [Sample.page1; Sample.page2])
            (tokenAfter "" [Sample.page1; Sample.page2])
            (Errorf "cannot obtain instances: %w" []
               (ExternalError "connection refused"))) as Hf.
  { apply (transportFailure _ _ _ _ ""). reflexivity. }
  split; [exact Hs|]. split; [exact Hne|]. split; [exact Hf|].
  split; [simpl; lia|].
  apply (fetch_failure_discards_pages Sample.SanitizeLabelName
           Sample.brokenEndpoint Sample.unmarshalInstances Sample.unmarshalZones
           3 Sample.cfg [] [Sample.page1; Sample.page2] _ Hs Hne Hf).
  simpl; lia.
Defined.

Lemma zone_fetch_is_one_request_witness :
  apiConfig.azMap Sample.cfg = None ∧
  ∃ m cfg',
    getAZMap Sample.endpoint Sample.unmarshalZones Sample.cfg [] =
      (m, cfg', [] ++ [Request.mk "DescribeAvailabilityZones" ""]) ∧
    is_Some (m !! "us-east-1a").
Proof.
  split; [reflexivity|].
  pose proof (zone_fetch_is_one_request Sample.endpoint Sample.unmarshalZones
                Sample.cfg [] eq_refl) as H.
  destruct (getAZMap Sample.endpoint Sample.unmarshalZones Sample.cfg [])
    as [[m cfg'] w'].
  destruct H as [Hw H]. exists m, cfg'. split; [by rewrite Hw|].
  destruct (H "<zones1>"
              (Sample.zones [AvailabilityZone.mk "us-east-1a" "use1-az1"])
              eq_refl eq_refl) as [Hdom _].
  apply (Hdom (AvailabilityZone.mk "us-east-1a" "use1-az1")). by left.
Defined.

Lemma zone_resolution_is_resolve_once_witness :
  ∃ cfg1 w1,
    getAZMap Sample.noZonesEndpoint Sample.unmarshalZones Sample.cfg [] =
      (∅, cfg1, w1) ∧
    apiConfig.azMap cfg1 = Some ∅ ∧
    getAZMap Sample.noZonesEndpoint Sample.unmarshalZones cfg1 w1 = (∅, cfg1, w1) ∧
    ∃ ms, getInstancesLabels Sample.SanitizeLabelName Sample.noZonesEndpoint
            Sample.unmarshalInstances Sample.unmarshalZones 1 cfg1 w1 =
            Some (ms, None, cfg1, w1 ++ [instancesRequest ""]) ∧
          Forall (λ m, m !! "__meta_ec2_availability_zone_id" = Some "") ms.
Proof.
  pose proof (zone_resolution_is_resolve_once Sample.SanitizeLabelName
                Sample.noZonesEndpoint Sample.unmarshalInstances
                Sample.unmarshalZones Sample.cfg []) as H.
  destruct (getAZMap Sample.noZonesEndpoint Sample.unmarshalZones Sample.cfg [])
    as [[m1 cfg1] w1] eqn:Hz.
  destruct H as (Hpop & Hagain & Hempty & Hlater & _).
  destruct (Hempty eq_refl [] _ _ eq_refl) as [-> _].
  exists cfg1, w1. split; [reflexivity|]. split; [exact Hpop|].
  split; [apply Hagain|].
  destruct (Hlater 1%nat w1 (reservationsOf [Sample.page3]) None
              (w1 ++ [instancesRequest ""]) eq_refl) as (ms & Hms & Hzone).
  exists ms. split; [exact Hms|]. by apply Hzone.
Defined.

Lemma one_label_map_per_addressable_instance_witness :
  getReservations Sample.endpoint Sample.unmarshalInstances 3 [] =
    Some (reservationsOf [Sample.page1; Sample.page2; Sample.page3], None,
          [instancesRequest ""; instancesRequest "t2"; instancesRequest "t3"]) ∧
  length (instancesOf (reservationsOf [Sample.page1; Sample.page2; Sample.page3]))
    = 4%nat ∧
  ∃ ms cfg' w',
    getInstancesLabels Sample.SanitizeLabelName Sample.endpoint
      Sample.unmarshalInstances Sample.unmarshalZones 3 Sample.cfg [] =
      Some (ms, None, cfg', w') ∧
    length ms = 3%nat.
Proof.
  split; [reflexivity|]. split; [reflexivity|].
  destruct (one_label_map_per_addressable_instance Sample.SanitizeLabelName
              Sample.endpoint Sample.unmarshalInstances Sample.unmarshalZones
              3 Sample.cfg [] _ _ eq_refl) as (_ & _ & ms & cfg' & w' & Hd & Hlen & _).
  exists ms, cfg', w'. split; [exact Hd|exact Hlen].
Defined.

Lemma label_maps_carry_fixed_labels_witness :
  ∃ ms cfg' w',
    getInstancesLabels Sample.SanitizeLabelName Sample.endpoint
      Sample.unmarshalInstances Sample.unmarshalZones 3 Sample.cfg [] =
      Some (ms, None, cfg', w') ∧
    length ms = 3%nat ∧
    Forall (λ m, ∃ addr, m !! "__address__" = Some addr ∧ addr ≠ "" ∧
                         is_Some (m !! "__meta_ec2_availability_zone_id")) ms.
Proof.
  destruct (getInstancesLabels Sample.SanitizeLabelName Sample.endpoint
              Sample.unmarshalInstances Sample.unmarshalZones 3 Sample.cfg [])
    as [[[[ms err] cfg'] w']|] eqn:Hd; [|discriminate Hd].
  assert (err = None ∧ length ms = 3%nat) as [-> Hlen].
  { injection Hd as <- <- _ _. split; reflexivity. }
  exists ms, cfg', w'. split; [reflexivity|]. split; [exact Hlen|].
  destruct (label_maps_carry_fixed_labels Sample.SanitizeLabelName
              Sample.endpoint Sample.unmarshalInstances Sample.unmarshalZones
              3 Sample.cfg [] ms None cfg' w' Hd) as (rs & w1 & _ & Hall).
  eapply Forall_impl; [exact Hall|].
  intros m (ownerID & inst & addr & _ & _ & Haddr & Hne & Hfix).
  exists addr. split; [exact Haddr|]. split; [exact Hne|].
  destruct Hfix as (_ & _ & _ & _ & Hid & _). rewrite Hid. by eexists.
Defined.

(** * Further properties of the code *)

(** ** Strings and joins *)

Lemma string_app_cons c (s t : string) : String c s +:+ t = String c (s +:+ t).
Proof. reflexivity. Qed.
Lemma string_app_assoc (s1 s2 s3 : string) :
  (s1 +:+ s2) +:+ s3 = s1 +:+ (s2 +:+ s3).
Proof.
  induction s1 as [|c s1 IH]; [done|]. by rewrite !string_app_cons, IH.
Qed.
Lemma string_app_nil_r (s : string) : s +:+ "" = s.
Proof. induction s as [|c s IH]; [done|]. by rewrite string_app_cons, IH. Qed.
Lemma Join_cons_cons x y l sep :
  Join (x :: y :: l) sep = x +:+ sep +:+ Join (y :: l) sep.
Proof. reflexivity. Qed.
Lemma commaWrapped_anchored (l : list string) (s : string) :
  s ∈ l → occursIn ("," +:+ s +:+ ",") (commaWrapped l).
Proof.
  unfold occursIn, commaWrapped. induction l as [|x l IH]; intros Hin.
  - by apply elem_of_nil in Hin.
  - apply elem_of_cons in Hin as [->|Hin].
    + destruct l as [|y l].
      * exists "", "". cbn [Join]. by rewrite string_app_nil_r.
      * exists "", (Join (y :: l) "," +:+ ",").
        rewrite Join_cons_cons. by rewrite !string_app_assoc.
    + destruct (IH Hin) as (p & q & Hpq). destruct l as [|y l].
      { by apply elem_of_nil in Hin. }
      exists ("," +:+ x +:+ p), q. rewrite Join_cons_cons.
      rewrite !string_app_assoc. do 2 f_equal.
      rewrite !string_app_assoc in Hpq. exact Hpq.
Qed.

(** ** The seen-set of the interface loop *)

Lemma niStep_seen_inv subnets seen addrs ni subnets' seen' addrs' :
  (∀ s, index_bool seen s = true ↔ s ∈ subnets) →
  niStep (subnets, seen, addrs) ni = (subnets', seen', addrs') →
  ∀ s, index_bool seen' s = true ↔ s ∈ subnets'.
Proof.
  intros Hinv Hstep s.
  destruct (decide (NetworkInterface.SubnetID ni = "")) as [Hid|Hid].
  { rewrite niStep_no_subnet in Hstep by done. by simplify_eq. }
  destruct (index_bool seen (NetworkInterface.SubnetID ni)) eqn:Hseen.
  - rewrite niStep_seen in Hstep by done. by simplify_eq.
  - rewrite niStep_fresh in Hstep by done. simplify_eq.
    rewrite elem_of_app, list_elem_of_singleton, <- Hinv.
    unfold index_bool. rewrite lookup_insert.
    case_decide; simplify_eq; simpl; naive_solver.
Qed.

Lemma niLoop_seen_inv nis : ∀ subnets seen addrs subnets' seen' addrs',
  (∀ s, index_bool seen s = true ↔ s ∈ subnets) →
  foldl niStep (subnets, seen, addrs) nis = (subnets', seen', addrs') →
  ∀ s, index_bool seen' s = true ↔ s ∈ subnets'.
Proof.
  induction nis as [|ni nis IH]; intros subnets seen addrs subnets' seen' addrs'
    Hinv Hloop.
  - by simplify_eq/=.
  - cbn [foldl] in Hloop.
    destruct (niStep (subnets, seen, addrs) ni) as [[subnets1 seen1] addrs1] eqn:E.
    eapply IH; [|exact Hloop]. by eapply niStep_seen_inv.
Qed.

(** X1.  The subnet list built by the interface loop has no duplicates and
    no empty entry, holds exactly the subnet ids that occur on some
    interface, and the seen-set marks exactly its elements. *)
Theorem niLoop_subnets_invariant nis subnets seenSubnets ipv6Addrs :
  niLoop nis = (subnets, seenSubnets, ipv6Addrs) →
  NoDup subnets ∧
  (∀ s, s ∈ subnets ↔
        s ≠ "" ∧ ∃ ni, ni ∈ nis ∧ NetworkInterface.SubnetID ni = s) ∧
  (∀ s, index_bool seenSubnets s = true ↔ s ∈ subnets).
Proof.
  intros Hloop. destruct (niLoop_spec nis) as [seen Hspec].
  rewrite Hloop in Hspec. injection Hspec as -> _ _. split_and!.
  - apply NoDup_dedupFirst.
  - intros s. rewrite elem_of_dedupFirst, list_elem_of_filter, list_elem_of_fmap.
    naive_solver.
  - eapply (niLoop_seen_inv nis [] ∅ []); [|exact Hloop].
    intros s. unfold index_bool. rewrite lookup_empty, elem_of_nil. naive_solver.
Qed.


(** ** More on the label map of one instance *)

Section LabelExtras.

Variable SanitizeLabelName : string → string.

Local Abbreviation step := (tagStep SanitizeLabelName).
Local Abbreviation nameOf := (tagName SanitizeLabelName).
Local Abbreviation labels := (targetLabels SanitizeLabelName).

Lemma elem_of_ipv6Of nis a :
  a ∈ ipv6Of nis ↔
  ∃ ni, ni ∈ nis ∧
        a ∈ Ipv6AddressesSet.Items (NetworkInterface.IPv6AddressesSet ni).
Proof.
  unfold ipv6Of. induction nis as [|ni nis IH]; cbn [map concat].
  - rewrite elem_of_nil. split; [done|]. intros (? & []%elem_of_nil & _).
  - rewrite elem_of_app, IH. setoid_rewrite elem_of_cons. naive_solver.
Qed.

(** X2.  Regular expressions can anchor on commas.  In the label map of an
    instance with a VPC id, every non-empty subnet id of an interface
    occurs in the subnet label between two commas, and so does every IPv6
    address of an interface with a subnet id in the IPv6 label. *)
Theorem list_labels_are_comma_anchored inst ms ownerID port azMap ni :
  Instance.PrivateIPAddress inst ≠ "" →
  Instance.VPCID inst ≠ "" →
  ni ∈ interfaces inst →
  NetworkInterface.SubnetID ni ≠ "" →
  ∃ m, appendTargetLabels SanitizeLabelName inst ms ownerID port azMap
         = ms ++ [m] ∧
       (∃ v, m !! "__meta_ec2_subnet_id" = Some v ∧
             occursIn ("," +:+ NetworkInterface.SubnetID ni +:+ ",") v) ∧
       (∀ a, a ∈ Ipv6AddressesSet.Items (NetworkInterface.IPv6AddressesSet ni) →
          ∃ v, m !! "__meta_ec2_ipv6_addresses" = Some v ∧
               occursIn ("," +:+ a +:+ ",") v).
Proof.
  intros Hip Hvpc Hni Hid. eexists.
  split; [by apply appendTargetLabels_emit|].
  rewrite !targetLabels_fixed by fixed_name.
  rewrite vpcLabels_vpc by done. cbn zeta. split.
  - eexists. split.
    + case_decide; [|rewrite lookup_insert_ne by done]; apply lookup_insert_eq.
    + apply commaWrapped_anchored. rewrite elem_of_dedupFirst.
      unfold subnetIDs. rewrite list_elem_of_filter, list_elem_of_fmap.
      naive_solver.
  - intros a Ha.
    assert (a ∈ ipv6Of (withSubnet (interfaces inst))) as Hin.
    { apply elem_of_ipv6Of. exists ni. split; [|done].
      unfold withSubnet. by apply list_elem_of_filter. }
    rewrite decide_False by (intros Hnil; rewrite Hnil in Hin;
                             by apply elem_of_nil in Hin).
    eexists. split; [apply lookup_insert_eq|].
    by apply commaWrapped_anchored.
Qed.

(** *** The names of the labels *)

Lemma tagStep_keeps m t k : is_Some (m !! k) → is_Some (step m t !! k).
Proof.
  intros H. destruct (decide (kept t)).
  - rewrite tagStep_kept by done. rewrite lookup_insert. by case_decide.
  - by rewrite tagStep_skip.
Qed.

Lemma tagLoop_keeps tags : ∀ m k,
  is_Some (m !! k) → is_Some (foldl step m tags !! k).
Proof.
  induction tags as [|t tags IH]; intros m k H; [done|].
  cbn [foldl]. by apply IH, tagStep_keeps.
Qed.

Lemma tagLoop_dom tags : ∀ m t,
  t ∈ tags → kept t → is_Some (foldl step m tags !! nameOf t).
Proof.
  induction tags as [|t' tags IH]; intros m t Hin Ht.
  { by apply elem_of_nil in Hin. }
  cbn [foldl]. apply elem_of_cons in Hin as [->|Hin]; [|by apply IH].
  apply tagLoop_keeps. rewrite tagStep_kept by done.
  by rewrite lookup_insert_eq.
Qed.

Lemma baseLabels_names inst ownerID port azMap k :
  is_Some (baseLabels inst ownerID port azMap !! k) ↔ k ∈ fixedLabelNames.
Proof.
  split.
  - intros [v H]. unfold baseLabels in H. apply elem_of_list_to_map_2 in H.
    by apply (list_elem_of_fmap_2 fst) in H.
  - intros Hk. pose proof (baseLabels_fixed inst ownerID port azMap) as H.
    unfold fixedLabels in H. destruct_and!.
    unfold fixedLabelNames in Hk.
    repeat (apply elem_of_cons in Hk as [->|Hk]; [eexists; eassumption|]).
    destruct (proj1 (elem_of_nil _) Hk).
Qed.

(** X3.  The label map of an instance has the address label, the sixteen
    per-attribute labels, the subnet label when the VPC id is not empty,
    the IPv6 label when moreover an interface with a subnet id has an
    address, one label per kept tag, and no other label. *)
Theorem label_names inst ownerID port azMap k :
  is_Some (targetLabels SanitizeLabelName inst ownerID port azMap !! k) ↔
    k ∈ fixedLabelNames ∨
    (Instance.VPCID inst ≠ "" ∧
     (k = "__meta_ec2_subnet_id" ∨
      k = "__meta_ec2_ipv6_addresses" ∧
      ipv6Of (withSubnet (interfaces inst)) ≠ [])) ∨
    (∃ t, t ∈ tags inst ∧ kept t ∧ k = tagName SanitizeLabelName t).
Proof.
  assert (is_Some (vpcLabels inst (baseLabels inst ownerID port azMap) !! k) ↔
          k ∈ fixedLabelNames ∨
          (Instance.VPCID inst ≠ "" ∧
           (k = "__meta_ec2_subnet_id" ∨
            k = "__meta_ec2_ipv6_addresses" ∧
            ipv6Of (withSubnet (interfaces inst)) ≠ []))) as Hvpc.
  { destruct (decide (Instance.VPCID inst = "")) as [Hv|Hv].
    - rewrite vpcLabels_no_vpc by done. rewrite baseLabels_names. naive_solver.
    - rewrite vpcLabels_vpc by done. cbn zeta.
      case_decide as Haddrs; rewrite !lookup_insert_is_Some, baseLabels_names;
        generalize (k ∈ fixedLabelNames); intros P;
        destruct (decide (k = "__meta_ec2_subnet_id")) as [Hs|Hs];
        destruct (decide (k = "__meta_ec2_ipv6_addresses")) as [Hi|Hi];
        intuition congruence. }
  unfold targetLabels. fold (tags inst). split.
  - intros [v H]. apply tagLoop_origin in H as [H|(t & ? & ? & ? & ?)].
    + assert (is_Some (vpcLabels inst (baseLabels inst ownerID port azMap) !! k))
        as Hk by (by eexists).
      apply Hvpc in Hk. naive_solver.
    + right. right. by exists t.
  - intros [Hk|[Hk|(t & Hin & Ht & ->)]].
    + apply tagLoop_keeps, Hvpc. by left.
    + apply tagLoop_keeps, Hvpc. by right.
    + by apply tagLoop_dom.
Qed.


(** *** What the tags can and cannot change *)

Lemma tagLoop_untouched tags : ∀ m k,
  (∀ t, t ∈ tags → kept t → nameOf t ≠ k) →
  foldl step m tags !! k = m !! k.
Proof.
  induction tags as [|t tags IH]; intros m k Hk; [done|].
  cbn [foldl]. rewrite IH by (intros t' ? ?; apply Hk; [by right|done]).
  destruct (decide (kept t)).
  - apply tagStep_other. intros Heq. by eapply Hk; [left|..].
  - by rewrite tagStep_skip.
Qed.

(** X4.  The tags of an instance have no influence on the labels outside
    the tag prefix: whatever tags replace them, every such label keeps its
    presence and its value. *)
Theorem tags_leave_other_labels inst ts ownerID port azMap k :
  fixedName k →
  targetLabels SanitizeLabelName (withTags inst ts) ownerID port azMap !! k =
    targetLabels SanitizeLabelName inst ownerID port azMap !! k.
Proof.
  intros Hk. by rewrite !targetLabels_fixed.
Qed.

(** X5.  When the kept tags of an instance have pairwise distinct
    sanitized keys, the label map does not depend on the order of the
    tags. *)
Theorem tag_order_is_irrelevant inst ts ownerID port azMap :
  ts ≡ₚ tags inst →
  NoDup (map (tagName SanitizeLabelName) (filter kept (tags inst))) →
  targetLabels SanitizeLabelName (withTags inst ts) ownerID port azMap =
    targetLabels SanitizeLabelName inst ownerID port azMap.
Proof.
  intros Hperm Hnd. unfold targetLabels. fold (tags inst).
  change (TagSet.Items (Instance.TagSet (withTags inst ts))) with ts.
  change (vpcLabels (withTags inst ts) (baseLabels (withTags inst ts) ownerID port azMap))
    with (vpcLabels inst (baseLabels inst ownerID port azMap)).
  generalize (vpcLabels inst (baseLabels inst ownerID port azMap)). intros m.
  assert (∀ l, NoDup (map nameOf (filter kept l)) →
            ∀ t, t ∈ l → kept t →
              foldl step m l !! nameOf t = Some (Tag.Value t)) as Hone.
  { intros l Hl t Hin Ht.
    apply list_elem_of_split in Hin as (l1 & l2 & ->).
    apply tagLoop_last; [done|]. intros t' Hin' Ht' Heq.
    rewrite filter_app, filter_cons_True, map_app in Hl by done.
    apply NoDup_app in Hl as (_ & _ & Hl). cbn [map] in Hl.
    apply NoDup_cons in Hl as [Hl _]. apply Hl. rewrite <- Heq.
    apply (list_elem_of_fmap_2 nameOf). by apply list_elem_of_filter. }
  assert (NoDup (map nameOf (filter kept ts))) as Hnd'.
  { by rewrite Hperm. }
  apply map_eq. intros k.
  destruct (decide (Exists (λ t, kept t ∧ nameOf t = k) (tags inst)))
    as [(t & Hin & Ht & <-)%Exists_exists|Hno].
  - rewrite (Hone _ Hnd t Hin Ht). apply (Hone _ Hnd'); [|done].
    by rewrite Hperm.
  - rewrite Exists_exists in Hno.
    rewrite !tagLoop_untouched; [done|..].
    + intros t Hin Ht Heq. apply Hno. by exists t.
    + intros t Hin Ht Heq. apply Hno. exists t. by rewrite <- Hperm.
Qed.

(** *** What the zone map can and cannot change *)

Lemma tagLoop_ext tags : ∀ (m1 m2 : gmap string string) k,
  m1 !! k = m2 !! k → foldl step m1 tags !! k = foldl step m2 tags !! k.
Proof.
  induction tags as [|t tags IH]; intros m1 m2 k H; [done|].
  cbn [foldl]. apply IH. destruct (decide (kept t)).
  - rewrite !tagStep_kept by done. rewrite !lookup_insert. by case_decide.
  - by rewrite !tagStep_skip.
Qed.

Lemma vpcLabels_ext inst (m1 m2 : gmap string string) k :
  m1 !! k = m2 !! k → vpcLabels inst m1 !! k = vpcLabels inst m2 !! k.
Proof.
  intros H. destruct (decide (Instance.VPCID inst = "")).
  - by rewrite !vpcLabels_no_vpc.
  - rewrite !vpcLabels_vpc by done. cbn zeta.
    case_decide; rewrite !lookup_insert; repeat case_decide; done.
Qed.

Lemma baseLabels_zone inst ownerID port azMap1 azMap2 k :
  k ≠ "__meta_ec2_availability_zone_id" →
  baseLabels inst ownerID port azMap1 !! k =
    baseLabels inst ownerID port azMap2 !! k.
Proof.
  intros Hk. destruct (decide (k ∈ fixedLabelNames)) as [Hin|Hnin].
  - unfold fixedLabelNames in Hin.
    repeat (apply elem_of_cons in Hin as [->|Hin];
            [first [reflexivity | congruence]|]).
    destruct (proj1 (elem_of_nil _) Hin).
  - transitivity (@None string); [|symmetry];
      apply eq_None_not_Some; by rewrite baseLabels_names.
Qed.

(** X6.  The zone map has no influence on a label other than the zone
    identifier: a zone fetch that failed changes that one label and
    nothing else. *)
Theorem zone_map_changes_one_label inst ownerID port azMap1 azMap2 k :
  k ≠ "__meta_ec2_availability_zone_id" →
  targetLabels SanitizeLabelName inst ownerID port azMap1 !! k =
    targetLabels SanitizeLabelName inst ownerID port azMap2 !! k.
Proof.
  intros Hk. unfold targetLabels.
  by apply tagLoop_ext, vpcLabels_ext, baseLabels_zone.
Qed.

(** *** What the interfaces can and cannot change *)

Lemma niLoop_withSubnet nis : ∀ st,
  foldl niStep st (withSubnet nis) = foldl niStep st nis.
Proof.
  unfold withSubnet. induction nis as [|ni nis IH]; intros st; [done|].
  destruct (decide (NetworkInterface.SubnetID ni = "")) as [Hid|Hid].
  - rewrite filter_cons_False by (intros H; by apply H).
    cbn [foldl]. by rewrite niStep_no_subnet.
  - rewrite filter_cons_True by done. cbn [foldl]. apply IH.
Qed.

(** X7.  An interface without subnet id has no influence on the label map:
    removing all such interfaces from an instance, with their IPv6
    addresses, leaves the label map as it is. *)
Theorem interfaces_without_subnet_are_ignored inst ownerID port azMap :
  targetLabels SanitizeLabelName
    (withInterfaces inst (withSubnet (interfaces inst))) ownerID port azMap =
  targetLabels SanitizeLabelName inst ownerID port azMap.
Proof.
  unfold targetLabels.
  change (TagSet.Items (Instance.TagSet (withInterfaces inst _)))
    with (TagSet.Items (Instance.TagSet inst)).
  f_equal. unfold vpcLabels, niLoop.
  change (Instance.VPCID (withInterfaces inst _)) with (Instance.VPCID inst).
  change (NetworkInterfaceSet.Items
            (Instance.NetworkInterfaceSet (withInterfaces inst ?nis)))
    with (withSubnet (interfaces inst)).
  by rewrite niLoop_withSubnet.
Qed.

(** X8.  The interfaces of an instance without VPC id have no influence on
    its label map, whatever subnet ids and IPv6 addresses they carry. *)
Theorem interfaces_ignored_without_vpc inst nis ownerID port azMap :
  Instance.VPCID inst = "" →
  targetLabels SanitizeLabelName (withInterfaces inst nis) ownerID port azMap =
    targetLabels SanitizeLabelName inst ownerID port azMap.
Proof.
  intros Hvpc. unfold targetLabels.
  rewrite !vpcLabels_no_vpc by done. reflexivity.
Qed.

(** X9.  When the VPC id is not empty and no interface has a subnet id,
    the subnet label is two commas and there is no IPv6 label, even if the
    interfaces carry IPv6 addresses. *)
Theorem no_subnet_on_any_interface inst ms ownerID port azMap :
  Instance.PrivateIPAddress inst ≠ "" →
  Instance.VPCID inst ≠ "" →
  Forall (λ ni, NetworkInterface.SubnetID ni = "") (interfaces inst) →
  ∃ m, appendTargetLabels SanitizeLabelName inst ms ownerID port azMap
         = ms ++ [m] ∧
       m !! "__meta_ec2_subnet_id" = Some ",," ∧
       m !! "__meta_ec2_ipv6_addresses" = None.
Proof.
  intros Hip Hvpc Hall. eexists. split; [by apply appendTargetLabels_emit|].
  rewrite !targetLabels_fixed by fixed_name.
  rewrite vpcLabels_vpc by done. cbn zeta.
  assert (withSubnet (interfaces inst) = []) as ->.
  { unfold withSubnet. induction Hall as [|ni nis Hni _ IH]; [done|].
    by rewrite filter_cons_False by (intros H; by apply H). }
  assert (subnetIDs inst = []) as ->.
  { unfold subnetIDs. induction Hall as [|ni nis Hni _ IH]; [done|].
    cbn [map]. by rewrite filter_cons_False by (intros H; by apply H). }
  split; reflexivity.
Qed.

End LabelExtras.

Section DiscoveryExtras.

Variable SanitizeLabelName : string → string.
Variable endpoint : History → Request.t → string * option error.
Variable xmlUnmarshalInstances : string → InstancesResponse.t * option error.
Variable xmlUnmarshalZones : string → AvailabilityZonesResponse.t * option error.

Local Abbreviation parse := (parseInstancesResponse xmlUnmarshalInstances).
Local Abbreviation loop := (getReservationsLoop endpoint xmlUnmarshalInstances).
Local Abbreviation served := (serves endpoint xmlUnmarshalInstances).
Local Abbreviation failed := (pageFailure endpoint xmlUnmarshalInstances).
Local Abbreviation nextToken := InstancesResponse.NextPageToken.
Local Abbreviation zoneInsert :=
  (λ (m : gmap string string) az,
     <[AvailabilityZone.ZoneName az := AvailabilityZone.ZoneID az]> m).

(** *** Every result of the fetch comes from a page sequence *)

Lemma loop_inv fuel : ∀ rs tok w rs' err w',
  loop fuel rs tok w = Some (rs', err, w') →
  match err with
  | None =>
      ∃ pages last,
        served w tok (pages ++ [last]) ∧
        Forall (λ ir, nextToken ir ≠ "") pages ∧
        nextToken last = "" ∧
        rs' = rs ++ reservationsOf (pages ++ [last]) ∧
        w' = w ++ requestsOf tok (pages ++ [last]) ∧
        (length pages < fuel)%nat
  | Some e =>
      ∃ pages,
        served w tok pages ∧
        Forall (λ ir, nextToken ir ≠ "") pages ∧
        failed (w ++ requestsOf tok pages) (tokenAfter tok pages) e ∧
        rs' = [] ∧
        w' = w ++ requestsOf tok pages ++ [instancesRequest (tokenAfter tok pages)] ∧
        (length pages < fuel)%nat
  end.
Proof.
  induction fuel as [|fuel IH]; intros rs tok w rs' err w' H; [done|].
  destruct (endpoint w (instancesRequest tok)) as [data [e|]] eqn:Hd.
  { rewrite (loop_step_transport _ _ _ _ _ _ _ _ Hd) in H.
    injection H as <- <- <-. exists []. cbn [requestsOf tokenAfter app length].
    rewrite app_nil_r. split_and!; try done; [|lia].
    by eapply transportFailure. }
  destruct (parse data) as [ir|e] eqn:Hp.
  2:{ rewrite (loop_step_parse _ _ _ _ _ _ _ _ Hd Hp) in H.
      injection H as <- <- <-. exists []. cbn [requestsOf tokenAfter app length].
      rewrite app_nil_r. split_and!; try done; [|lia].
      by eapply parseFailure. }
  destruct (decide (nextToken ir = "")) as [Hn|Hn].
  - rewrite (loop_step_last _ _ _ _ _ _ _ _ Hd Hp Hn) in H.
    injection H as <- <- <-. exists [], ir.
    unfold reservationsOf. cbn [app map concat requestsOf length serves].
    rewrite app_nil_r. split_and!; try done; [by eauto|lia].
  - rewrite (loop_step_more _ _ _ _ _ _ _ _ Hd Hp Hn) in H.
    apply IH in H. destruct err as [e|].
    + destruct H as (pages & Hs & Hne & Hf & -> & -> & Hlen).
      exists (ir :: pages). cbn [requestsOf tokenAfter serves length].
      rewrite <- !app_assoc in *. cbn [app] in *.
      split_and!; try done; [by eauto|by constructor|lia].
    + destruct H as (pages & last & Hs & Hne & Hlast & -> & -> & Hlen).
      exists (ir :: pages), last. unfold reservationsOf.
      cbn [app map concat requestsOf serves length].
      rewrite <- !app_assoc. cbn [app].
      split_and!; try done; [by eauto|by constructor|lia].
Qed.

Lemma requestsOf_instances pages : ∀ tok,
  Forall isInstancesRequest (requestsOf tok pages).
Proof.
  induction pages as [|ir pages IH]; intros tok; [constructor|].
  cbn [requestsOf]. by constructor.
Qed.


(** X10.  A fetch that returns without error has read a sequence of pages
    served by the endpoint, of which exactly the last has an empty
    next-token; it returns the reservations of these pages in order and
    has issued one request per page, with the tokens the pages gave. *)
Theorem getReservations_success_inversion fuel w rs w' :
  getReservations endpoint xmlUnmarshalInstances fuel w = Some (rs, None, w') →
  ∃ pages last,
    serves endpoint xmlUnmarshalInstances w "" (pages ++ [last]) ∧
    Forall (λ ir, InstancesResponse.NextPageToken ir ≠ "") pages ∧
    InstancesResponse.NextPageToken last = "" ∧
    rs = reservationsOf (pages ++ [last]) ∧
    w' = w ++ map instancesRequest
                ("" :: map InstancesResponse.NextPageToken pages) ∧
    (length pages < fuel)%nat.
Proof.
  intros H. apply loop_inv in H as (pages & last & ? & ? & ? & -> & -> & ?).
  exists pages, last. by rewrite requestsOf_tokens.
Qed.

(** X11.  A fetch that returns an error returns no reservation, and has
    read a sequence of pages with non-empty next-tokens before the request
    for the next page failed in the transport or in the parser; the error
    is that failure, wrapped once. *)
Theorem getReservations_error_inversion fuel w rs err w' :
  getReservations endpoint xmlUnmarshalInstances fuel w
    = Some (rs, Some err, w') →
  rs = [] ∧
  is_Some (Unwrap err) ∧
  ∃ pages,
    serves endpoint xmlUnmarshalInstances w "" pages ∧
    Forall (λ ir, InstancesResponse.NextPageToken ir ≠ "") pages ∧
    pageFailure endpoint xmlUnmarshalInstances (w ++ requestsOf "" pages)
      (tokenAfter "" pages) err ∧
    w' = w ++ requestsOf "" pages ++ [instancesRequest (tokenAfter "" pages)].
Proof.
  intros H. apply loop_inv in H as (pages & ? & ? & Hf & -> & -> & ?).
  split; [done|]. split; [by destruct Hf|]. by exists pages.
Qed.

(** The result of the fetch does not depend on the fuel, once there is
    enough of it. *)
Lemma getReservations_fuel_mono fuel fuel' w r :
  (fuel ≤ fuel')%nat →
  getReservations endpoint xmlUnmarshalInstances fuel w = Some r →
  getReservations endpoint xmlUnmarshalInstances fuel' w = Some r.
Proof.
  intros Hle H. destruct r as [[rs [e|]] w'].
  - apply loop_inv in H as (pages & ? & ? & ? & -> & -> & ?).
    apply loop_failure; [done..|lia].
  - apply loop_inv in H as (pages & last & ? & ? & ? & -> & -> & ?).
    apply loop_pages; [done..|lia].
Qed.

(** *** Pagination without end *)

Lemma loop_endless :
  (∀ w tok, ∃ data ir,
     endpoint w (instancesRequest tok) = (data, None) ∧
     parse data = Ok ir ∧ nextToken ir ≠ "") →
  ∀ fuel rs tok w, loop fuel rs tok w = None.
Proof.
  intros Hall. induction fuel as [|fuel IH]; intros rs tok w; [done|].
  destruct (Hall w tok) as (data & ir & Hd & Hp & Hn).
  rewrite (loop_step_more _ _ _ _ _ _ _ _ Hd Hp Hn). apply IH.
Qed.

(** X12.  The fetch has no bound on the number of pages: against an endpoint
    that answers every request with a page whose next-token is not empty,
    neither the fetch nor the discovery call returns, whatever the fuel. *)
Theorem endless_pagination_never_returns :
  (∀ w tok, ∃ data ir,
     endpoint w (instancesRequest tok) = (data, None) ∧
     parseInstancesResponse xmlUnmarshalInstances data = Ok ir ∧
     InstancesResponse.NextPageToken ir ≠ "") →
  ∀ fuel cfg w,
    getReservations endpoint xmlUnmarshalInstances fuel w = None ∧
    getInstancesLabels SanitizeLabelName endpoint xmlUnmarshalInstances
      xmlUnmarshalZones fuel cfg w = None.
Proof.
  intros Hall fuel cfg w.
  assert (getReservations endpoint xmlUnmarshalInstances fuel w = None) as H
    by (by apply loop_endless).
  split; [done|]. unfold getInstancesLabels. by rewrite H.
Qed.

(** *** Requests and config of the discovery call *)

(** X13.  The discovery call only appends to the request log and never
    changes the port.  Its requests are one or more requests for instance
    pages, the first with the empty token, followed, only when the fetch
    succeeded and the zone cache was not populated, by a single request
    for the zone list.  When it returns an error it returns no label map,
    issues no zone request and leaves the config as it was; when it
    returns no error the zone cache is populated afterwards, and a cache
    populated before is left as it was. *)
Theorem discovery_effects fuel cfg w ms err cfg' w' :
  getInstancesLabels SanitizeLabelName endpoint xmlUnmarshalInstances
    xmlUnmarshalZones fuel cfg w = Some (ms, err, cfg', w') →
  ∃ ireqs zreqs,
    w' = w ++ (instancesRequest "" :: ireqs) ++ zreqs ∧
    Forall isInstancesRequest ireqs ∧
    apiConfig.port cfg' = apiConfig.port cfg ∧
    match err with
    | Some _ => ms = [] ∧ cfg' = cfg ∧ zreqs = []
    | None =>
        is_Some (apiConfig.azMap cfg') ∧
        match apiConfig.azMap cfg with
        | Some _ => cfg' = cfg ∧ zreqs = []
        | None => zreqs = [zonesRequest]
        end
    end.
Proof.
  intros H.
  destruct (getReservations endpoint xmlUnmarshalInstances fuel w)
    as [[[rs err1] w1]|] eqn:Hr.
  2:{ unfold getInstancesLabels in H. by rewrite Hr in H. }
  rewrite (discover_unfold _ _ _ _ _ _ _ _ _ _ Hr) in H.
  pose proof (getAZMap_populates endpoint xmlUnmarshalZones cfg w1) as [Hpop Hport].
  destruct err1 as [e|]; injection H as <- <- <- <-.
  - apply loop_inv in Hr as (pages & _ & _ & _ & _ & -> & _).
    destruct pages as [|ir pages]; cbn [requestsOf tokenAfter app].
    + exists [], []. by rewrite app_nil_r.
    + exists (requestsOf (nextToken ir) pages ++
              [instancesRequest (tokenAfter (nextToken ir) pages)]), [].
      rewrite app_nil_r. split_and!; try done.
      apply Forall_app. split; [apply requestsOf_instances|by repeat constructor].
  - apply loop_inv in Hr as (pages & last & _ & _ & _ & _ & -> & _).
    assert (∃ ireqs, requestsOf "" (pages ++ [last]) = instancesRequest "" :: ireqs
                     ∧ Forall isInstancesRequest ireqs) as (ireqs & -> & Hall).
    { destruct pages as [|ir pages]; cbn [app requestsOf].
      - exists (requestsOf (nextToken last) []).
        split; [reflexivity|apply requestsOf_instances].
      - exists (requestsOf (nextToken ir) (pages ++ [last])).
        split; [reflexivity|apply requestsOf_instances]. }
    destruct (apiConfig.azMap cfg) as [m|] eqn:Hcfg.
    + rewrite (getAZMap_cached _ _ _ _ _ Hcfg). simpl.
      exists ireqs, []. rewrite app_nil_r, Hcfg. by split_and!.
    + pose proof (getAvailabilityZones_log endpoint xmlUnmarshalZones
                    (w ++ instancesRequest "" :: ireqs)) as Hlog.
      rewrite (getAZMap_unresolved _ _ _ _ Hcfg) in *.
      destruct (getAvailabilityZones _ _ _) as [[azs e] w2]. simpl in *.
      exists ireqs, [zonesRequest]. subst w2. rewrite <- app_assoc.
      by split_and!.
Qed.


(** *** The zone map *)

Lemma zoneFold_untouched azs : ∀ (m : gmap string string) name,
  (∀ az, az ∈ azs → AvailabilityZone.ZoneName az ≠ name) →
  foldl zoneInsert m azs !! name = m !! name.
Proof.
  induction azs as [|az azs IH]; intros m name H; [done|].
  cbn [foldl]. rewrite IH by (intros az' ?; apply H; by right).
  apply lookup_insert_ne, H. by left.
Qed.

Lemma zoneFold_last (m : gmap string string) l1 az l2 :
  (∀ az', az' ∈ l2 →
     AvailabilityZone.ZoneName az' ≠ AvailabilityZone.ZoneName az) →
  foldl zoneInsert m (l1 ++ az :: l2) !! AvailabilityZone.ZoneName az =
    Some (AvailabilityZone.ZoneID az).
Proof.
  intros H. rewrite foldl_app. cbn [foldl].
  rewrite zoneFold_untouched by done. apply lookup_insert_eq.
Qed.

Lemma getAZMap_fresh_lookup cfg w azs w1 :
  apiConfig.azMap cfg = None →
  getAvailabilityZones endpoint xmlUnmarshalZones w = (azs, None, w1) →
  getAZMap endpoint xmlUnmarshalZones cfg w =
    (foldl zoneInsert ∅ azs,
     apiConfig.mk (apiConfig.port cfg) (Some (foldl zoneInsert ∅ azs)), w1).
Proof.
  intros Hcfg Hz. by rewrite (getAZMap_unresolved _ _ _ _ Hcfg), Hz.
Qed.

(** X14.  When the zone list names a zone more than once, the zone map
    keeps the identifier of the last entry with that name; a name that the
    zone list does not have is not in the map. *)
Theorem zone_map_last_entry_wins cfg w azs w1 :
  apiConfig.azMap cfg = None →
  getAvailabilityZones endpoint xmlUnmarshalZones w = (azs, None, w1) →
  let m := (getAZMap endpoint xmlUnmarshalZones cfg w).1.1 in
  (∀ l1 az l2,
     azs = l1 ++ az :: l2 →
     (∀ az', az' ∈ l2 →
        AvailabilityZone.ZoneName az' ≠ AvailabilityZone.ZoneName az) →
     m !! AvailabilityZone.ZoneName az = Some (AvailabilityZone.ZoneID az)) ∧
  (∀ name,
     (∀ az, az ∈ azs → AvailabilityZone.ZoneName az ≠ name) →
     m !! name = None).
Proof.
  intros Hcfg Hz. rewrite (getAZMap_fresh_lookup _ _ _ _ Hcfg Hz). simpl. split.
  - intros l1 az l2 -> Hl2. by apply zoneFold_last.
  - intros name Hno. rewrite zoneFold_untouched by done. apply lookup_empty.
Qed.

(** X15.  On a config whose zone cache is not populated, a discovery call
    whose fetch and zone list both succeed labels every instance with the
    identifier of the last zone-list entry that has the instance's zone
    name, and with the empty string when the zone list has no such
    entry. *)
Theorem discovery_zone_ids fuel cfg w rs w1 azs w2 :
  apiConfig.azMap cfg = None →
  getReservations endpoint xmlUnmarshalInstances fuel w = Some (rs, None, w1) →
  getAvailabilityZones endpoint xmlUnmarshalZones w1 = (azs, None, w2) →
  ∃ ms cfg',
    getInstancesLabels SanitizeLabelName endpoint xmlUnmarshalInstances
      xmlUnmarshalZones fuel cfg w = Some (ms, None, cfg', w2) ∧
    Forall2
      (λ m oi,
         (∀ l1 az l2,
            azs = l1 ++ az :: l2 →
            AvailabilityZone.ZoneName az = zoneOf oi.2 →
            (∀ az', az' ∈ l2 →
               AvailabilityZone.ZoneName az' ≠ zoneOf oi.2) →
            m !! "__meta_ec2_availability_zone_id"
              = Some (AvailabilityZone.ZoneID az)) ∧
         ((∀ az, az ∈ azs → AvailabilityZone.ZoneName az ≠ zoneOf oi.2) →
          m !! "__meta_ec2_availability_zone_id" = Some ""))
      ms (filter addressable (instancesOf rs)).
Proof.
  intros Hcfg Hr Hz.
  rewrite (discover_unfold _ _ _ _ _ _ _ _ _ _ Hr).
  rewrite (getAZMap_fresh_lookup _ _ _ _ Hcfg Hz). cbn [fst snd].
  do 2 eexists. split; [reflexivity|].
  rewrite instancesLabels_spec.
  apply Forall2_fmap_l, Forall_Forall2_diag, Forall_forall.
  intros [ownerID inst] _. unfold compose. cbn [fst snd].
  destruct (targetLabels_fixedLabels SanitizeLabelName inst ownerID
              (apiConfig.port cfg) (foldl zoneInsert ∅ azs))
    as (_ & _ & _ & _ & Hid & _).
  rewrite Hid. fold (zoneOf inst). split.
  - intros l1 az l2 -> Hname Hl2. rewrite <- Hname.
    rewrite zoneFold_last; [done|]. intros az' ?. rewrite Hname. eauto.
  - intros Hno. by rewrite zoneFold_untouched, lookup_empty.
Qed.

(** *** Label maps of concatenated reservation lists *)

(** X16.  The label maps of a concatenation of reservation lists are the
    label maps of the first list followed by those of the second: each
    instance is labelled on its own, and the order of the reservations and
    of the instances within them is kept. *)
Theorem instancesLabels_app rs1 rs2 port azMap :
  instancesLabels SanitizeLabelName (rs1 ++ rs2) port azMap =
    instancesLabels SanitizeLabelName rs1 port azMap ++
    instancesLabels SanitizeLabelName rs2 port azMap.
Proof.
  rewrite !instancesLabels_spec. unfold instancesOf.
  by rewrite map_app, concat_app, filter_app, map_app.
Qed.

(** *** Where the errors of the discovery call come from *)

Lemma parseInstancesResponse_Err data err :
  parse data = Err err →
  ∃ v e, xmlUnmarshalInstances data = (v, Some e) ∧
         err = Errorf "cannot unmarshal InstancesResponse from %q: %w" [data] e.
Proof.
  unfold parseInstancesResponse.
  destruct (xmlUnmarshalInstances data) as [v [e|]]; [|done].
  intros [= <-]. by eauto.
Qed.

(** X17.  An error returned by the discovery call is the error of one
    request for an instance page: either the transport's error wrapped
    once, or the decoder's error wrapped twice, the inner wrapper carrying
    the payload that could not be decoded.  An error of the zone list
    never appears. *)
Theorem discovery_error_provenance fuel cfg w ms err cfg' w' :
  getInstancesLabels SanitizeLabelName endpoint xmlUnmarshalInstances
    xmlUnmarshalZones fuel cfg w = Some (ms, Some err, cfg', w') →
  ∃ h tok data,
    w' = h ++ [instancesRequest tok] ∧
    ((∃ e, endpoint h (instancesRequest tok) = (data, Some e) ∧
           err = Errorf "cannot obtain instances: %w" [] e) ∨
     (∃ v e, endpoint h (instancesRequest tok) = (data, None) ∧
             xmlUnmarshalInstances data = (v, Some e) ∧
             err = Errorf "cannot parse instance list: %w" []
                     (Errorf "cannot unmarshal InstancesResponse from %q: %w"
                        [data] e))).
Proof.
  intros H.
  destruct (getReservations endpoint xmlUnmarshalInstances fuel w)
    as [[[rs err1] w1]|] eqn:Hr.
  2:{ unfold getInstancesLabels in H. by rewrite Hr in H. }
  rewrite (discover_unfold _ _ _ _ _ _ _ _ _ _ Hr) in H.
  destruct err1 as [e1|]; [|done]. injection H as <- <- <- <-.
  apply loop_inv in Hr as (pages & _ & _ & Hf & _ & -> & _).
  exists (w ++ requestsOf "" pages), (tokenAfter "" pages).
  destruct Hf as [data e Hd|data e Hd Hp].
  - exists data. split; [by rewrite app_assoc|]. left. by eauto.
  - exists data. split; [by rewrite app_assoc|]. right.
    apply parseInstancesResponse_Err in Hp as (v & e' & ? & ->). by eauto.
Qed.

End DiscoveryExtras.

(** ** The further properties at the sample deployment *)

Lemma niLoop_subnets_invariant_witness :
  ∃ seen addrs,
    niLoop (interfaces Sample.web) = (["subnet-a"; "subnet-b"], seen, addrs) ∧
    NoDup ["subnet-a"; "subnet-b"] ∧
    index_bool seen "subnet-b" = true.
Proof.
  do 2 eexists. split; [reflexivity|].
  destruct (niLoop_subnets_invariant (interfaces Sample.web) _ _ _ eq_refl)
    as (Hnd & _ & Hseen).
  split; [exact Hnd|]. apply Hseen. right. left.
Defined.

Lemma list_labels_are_comma_anchored_witness :
  Instance.PrivateIPAddress Sample.web ≠ "" ∧
  Instance.VPCID Sample.web ≠ "" ∧
  Sample.ni "subnet-b" ["c"] ∈ interfaces Sample.web ∧
  ∃ m, appendTargetLabels Sample.SanitizeLabelName Sample.web [] "owner-1"
         9100 ∅ = [m] ∧
       ∃ v, m !! "__meta_ec2_ipv6_addresses" = Some v ∧ occursIn ",c," v.
Proof.
  assert (Sample.ni "subnet-b" ["c"] ∈ interfaces Sample.web) as Hin
    by (right; right; left).
  split; [discriminate|]. split; [discriminate|]. split; [exact Hin|].
  destruct (list_labels_are_comma_anchored Sample.SanitizeLabelName Sample.web
              [] "owner-1" 9100 ∅ (Sample.ni "subnet-b" ["c"]))
    as (m & Hm & _ & H6); [discriminate|discriminate|exact Hin|discriminate|].
  exists m. split; [exact Hm|]. apply (H6 "c"). left.
Defined.

Lemma label_names_witness :
  is_Some (targetLabels Sample.SanitizeLabelName Sample.web "owner-1" 9100 ∅
             !! "__meta_ec2_tag_Name") ∧
  ¬ is_Some (targetLabels Sample.SanitizeLabelName Sample.bare "owner-1" 9100 ∅
               !! "__meta_ec2_ipv6_addresses").
Proof.
  split.
  - apply (label_names Sample.SanitizeLabelName Sample.web "owner-1" 9100 ∅).
    right. right. exists (Tag.mk "Name" "web").
    split; [left|]. split; [split; discriminate|reflexivity].
  - intros H.
    apply (label_names Sample.SanitizeLabelName Sample.bare "owner-1" 9100 ∅)
      in H as [H|[(_ & [H|[_ H]])|(t & H & _)]].
    + assert ("__meta_ec2_ipv6_addresses" ∉ fixedLabelNames) as Hn
        by (apply (bool_decide_unpack _); vm_compute; exact I).
      exact (Hn H).
    + discriminate H.
    + by apply H.
    + destruct (proj1 (elem_of_nil t) H).
Defined.

Lemma tags_leave_other_labels_witness :
  fixedName "__meta_ec2_subnet_id" ∧
  targetLabels Sample.SanitizeLabelName (withTags Sample.web []) "owner-1"
    9100 ∅ !! "__meta_ec2_subnet_id" =
  targetLabels Sample.SanitizeLabelName Sample.web "owner-1" 9100 ∅
    !! "__meta_ec2_subnet_id".
Proof.
  assert (fixedName "__meta_ec2_subnet_id") as Hk by fixed_name.
  split; [exact Hk|].
  exact (tags_leave_other_labels Sample.SanitizeLabelName Sample.web []
           "owner-1" 9100 ∅ _ Hk).
Defined.

Lemma tag_order_is_irrelevant_witness :
  [Tag.mk "" "x"; Tag.mk "Name" "web"; Tag.mk "Env:Prod" "1"]
    ≡ₚ tags Sample.tagged ∧
  NoDup (map (tagName Sample.SanitizeLabelName) (filter kept (tags Sample.tagged))) ∧
  targetLabels Sample.SanitizeLabelName
    (withTags Sample.tagged
       [Tag.mk "" "x"; Tag.mk "Name" "web"; Tag.mk "Env:Prod" "1"])
    "owner-1" 9100 ∅ =
  targetLabels Sample.SanitizeLabelName Sample.tagged "owner-1" 9100 ∅.
Proof.
  assert ([Tag.mk "" "x"; Tag.mk "Name" "web"; Tag.mk "Env:Prod" "1"]
            ≡ₚ tags Sample.tagged) as Hperm by apply perm_swap.
  assert (NoDup (map (tagName Sample.SanitizeLabelName)
                   (filter kept (tags Sample.tagged)))) as Hnd.
  { apply (bool_decide_unpack _). vm_compute. exact I. }
  split; [exact Hperm|]. split; [exact Hnd|].
  exact (tag_order_is_irrelevant Sample.SanitizeLabelName Sample.tagged _
           "owner-1" 9100 ∅ Hperm Hnd).
Defined.

Lemma zone_map_changes_one_label_witness :
  "__meta_ec2_vpc_id" ≠ "__meta_ec2_availability_zone_id" ∧
  targetLabels Sample.SanitizeLabelName Sample.web "owner-1" 9100 ∅
    !! "__meta_ec2_vpc_id" =
  targetLabels Sample.SanitizeLabelName Sample.web "owner-1" 9100
    {["us-east-1a" := "use1-az1"]} !! "__meta_ec2_vpc_id".
Proof.
  split; [discriminate|].
  apply (zone_map_changes_one_label Sample.SanitizeLabelName). discriminate.
Defined.

Lemma interfaces_ignored_without_vpc_witness :
  Instance.VPCID Sample.classic = "" ∧
  targetLabels Sample.SanitizeLabelName (withInterfaces Sample.classic [])
    "owner-2" 9100 ∅ =
  targetLabels Sample.SanitizeLabelName Sample.classic "owner-2" 9100 ∅.
Proof.
  split; [reflexivity|].
  apply (interfaces_ignored_without_vpc Sample.SanitizeLabelName). reflexivity.
Defined.

Lemma no_subnet_on_any_interface_witness :
  Instance.PrivateIPAddress Sample.orphaned ≠ "" ∧
  Instance.VPCID Sample.orphaned ≠ "" ∧
  Forall (λ ni, NetworkInterface.SubnetID ni = "") (interfaces Sample.orphaned) ∧
  ∃ m, appendTargetLabels Sample.SanitizeLabelName Sample.orphaned []
         "owner-1" 9100 ∅ = [m] ∧
       m !! "__meta_ec2_subnet_id" = Some ",," ∧
       m !! "__meta_ec2_ipv6_addresses" = None.
Proof.
  assert (Forall (λ ni, NetworkInterface.SubnetID ni = "")
            (interfaces Sample.orphaned)) as Hall
    by (repeat constructor).
  split; [discriminate|]. split; [discriminate|]. split; [exact Hall|].
  apply (no_subnet_on_any_interface Sample.SanitizeLabelName Sample.orphaned []
           "owner-1" 9100 ∅); [discriminate|discriminate|exact Hall].
Defined.

Lemma getReservations_success_inversion_witness :
  getReservations Sample.endpoint Sample.unmarshalInstances 3 [] =
    Some (reservationsOf [Sample.page1; Sample.page2; Sample.page3], None,
          [instancesRequest ""; instancesRequest "t2"; instancesRequest "t3"]) ∧
  ∃ pages last,
    serves Sample.endpoint Sample.unmarshalInstances [] "" (pages ++ [last]) ∧
    InstancesResponse.NextPageToken last = "" ∧
    reservationsOf [Sample.page1; Sample.page2; Sample.page3]
      = reservationsOf (pages ++ [last]).
Proof.
  split; [reflexivity|].
  destruct (getReservations_success_inversion Sample.endpoint
              Sample.unmarshalInstances 3 [] _ _ eq_refl)
    as (pages & last & Hs & _ & Hlast & Hrs & _).
  exists pages, last. split; [exact Hs|]. split; [exact Hlast|exact Hrs].
Defined.

Lemma getReservations_error_inversion_witness :
  getReservations Sample.brokenEndpoint Sample.unmarshalInstances 3 [] =
    Some ([], Some (Errorf "cannot obtain instances: %w" []
                      (ExternalError "connection refused")),
          [instancesRequest ""; instancesRequest "t2"; instancesRequest "t3"]) ∧
  is_Some (Unwrap (Errorf "cannot obtain instances: %w" []
                     (ExternalError "connection refused"))).
Proof.
  split; [reflexivity|].
  destruct (getReservations_error_inversion Sample.brokenEndpoint
              Sample.unmarshalInstances 3 [] _ _ _ eq_refl) as (_ & H & _).
  exact H.
Defined.

Lemma endless_pagination_never_returns_witness :
  (∀ w tok, ∃ data ir,
     Sample.loopingEndpoint w (instancesRequest tok) = (data, None) ∧
     parseInstancesResponse Sample.unmarshalInstances data = Ok ir ∧
     InstancesResponse.NextPageToken ir ≠ "") ∧
  getReservations Sample.loopingEndpoint Sample.unmarshalInstances 1000 [] = None.
Proof.
  assert (∀ w tok, ∃ data ir,
            Sample.loopingEndpoint w (instancesRequest tok) = (data, None) ∧
            parseInstancesResponse Sample.unmarshalInstances data = Ok ir ∧
            InstancesResponse.NextPageToken ir ≠ "") as Hall.
  { intros w tok. exists "<page1>", Sample.page1.
    split; [reflexivity|]. split; [reflexivity|discriminate]. }
  split; [exact Hall|].
  exact (proj1 (endless_pagination_never_returns Sample.SanitizeLabelName
                  Sample.loopingEndpoint Sample.unmarshalInstances
                  Sample.unmarshalZones Hall 1000%nat Sample.cfg [])).
Defined.

Lemma discovery_effects_witness :
  ∃ ms cfg' w',
    getInstancesLabels Sample.SanitizeLabelName Sample.endpoint
      Sample.unmarshalInstances Sample.unmarshalZones 3 Sample.cfg [] =
      Some (ms, None, cfg', w') ∧
    is_Some (apiConfig.azMap cfg') ∧
    ∃ ireqs, w' = [] ++ (instancesRequest "" :: ireqs) ++ [zonesRequest].
Proof.
  destruct (getInstancesLabels Sample.SanitizeLabelName Sample.endpoint
              Sample.unmarshalInstances Sample.unmarshalZones 3 Sample.cfg [])
    as [[[[ms err] cfg'] w']|] eqn:Hd; [|discriminate Hd].
  assert (err = None) as -> by (by injection Hd as _ <- _ _).
  destruct (discovery_effects Sample.SanitizeLabelName Sample.endpoint
              Sample.unmarshalInstances Sample.unmarshalZones 3 Sample.cfg []
              ms None cfg' w' Hd) as (ireqs & zreqs & Hw & _ & _ & Hpop & Hz).
  exists ms, cfg', w'. split; [reflexivity|]. split; [exact Hpop|].
  exists ireqs. simpl in Hz. rewrite <- Hz. exact Hw.
Defined.

Lemma zone_map_last_entry_wins_witness :
  apiConfig.azMap Sample.cfg = None ∧
  (getAZMap Sample.endpoint Sample.unmarshalRepeatedZones Sample.cfg []).1.1
    !! "us-east-1a" = Some "use1-az1".
Proof.
  split; [reflexivity|].
  destruct (zone_map_last_entry_wins Sample.endpoint
              Sample.unmarshalRepeatedZones Sample.cfg [] _ _ eq_refl eq_refl)
    as [Hlast _].
  apply (Hlast [AvailabilityZone.mk "us-east-1a" "old";
                AvailabilityZone.mk "us-east-1b" "use1-az2"]
               (AvailabilityZone.mk "us-east-1a" "use1-az1") []);
    [reflexivity|].
  intros az' Hin. destruct (proj1 (elem_of_nil az') Hin).
Defined.

Lemma discovery_zone_ids_witness :
  apiConfig.azMap Sample.cfg = None ∧
  ∃ ms cfg' w',
    getInstancesLabels Sample.SanitizeLabelName Sample.endpoint
      Sample.unmarshalInstances Sample.unmarshalRepeatedZones 3 Sample.cfg [] =
      Some (ms, None, cfg', w') ∧
    Forall (λ m, m !! "__meta_ec2_availability_zone_id" = Some "use1-az1") ms.
Proof.
  split; [reflexivity|].
  destruct (discovery_zone_ids Sample.SanitizeLabelName Sample.endpoint
              Sample.unmarshalInstances Sample.unmarshalRepeatedZones 3
              Sample.cfg [] _ _ _ _ eq_refl eq_refl eq_refl)
    as (ms & cfg' & Hd & Hall).
  exists ms, cfg'. eexists. split; [exact Hd|].
  eapply Forall2_Forall_l; [exact Hall|].
  apply Forall_forall. intros [ownerID inst] Hin m [Hlast _].
  apply (Hlast [AvailabilityZone.mk "us-east-1a" "old";
                AvailabilityZone.mk "us-east-1b" "use1-az2"]
               (AvailabilityZone.mk "us-east-1a" "use1-az1") []);
    [reflexivity| |].
  - revert Hin. cbn [snd]. intros Hin.
    apply list_elem_of_filter in Hin as [_ Hin].
    match type of Hin with
    | _ ∈ ?l => let l' := eval vm_compute in l in change l with l' in Hin
    end.
    repeat (apply elem_of_cons in Hin as [[= -> ->]|Hin]; [reflexivity|]).
    destruct (proj1 (elem_of_nil _) Hin).
  - intros az' Haz. destruct (proj1 (elem_of_nil az') Haz).
Defined.

Lemma discovery_error_provenance_witness :
  ∃ w',
    getInstancesLabels Sample.SanitizeLabelName Sample.brokenEndpoint
      Sample.unmarshalInstances Sample.unmarshalZones 3 Sample.cfg [] =
      Some ([], Some (Errorf "cannot obtain instances: %w" []
                        (ExternalError "connection refused")),
            Sample.cfg, w') ∧
    ∃ h tok, w' = h ++ [instancesRequest tok].
Proof.
  eexists. split; [reflexivity|].
  destruct (discovery_error_provenance Sample.SanitizeLabelName
              Sample.brokenEndpoint Sample.unmarshalInstances
              Sample.unmarshalZones 3 Sample.cfg [] _ _ _ _ eq_refl)
    as (h & tok & _ & Hw & _).
  exists h, tok. exact Hw.
Defined.
